(** * fnn.utils: delay embeddings, train/test partition, standardisation

    A shallow embedding of [fnn/utils.py].  Arrays are nested lists whose
    nesting depth is the rank of the array (the shape is read off the
    lengths); Python integers are [Z]; [float64] values are IEEE 754
    binary64 numbers ([spec_float] with 53 bits of precision and round to
    nearest even); a Python exception is the [Raise] branch of [result]. *)

From Stdlib Require Import ZArith QArith Lia Reals Lra.
From Stdlib Require Import Floats.SpecFloat.
From stdpp Require Import base list strings.

(** ** Python values and exceptions *)

Module Py.

Inductive exn :=
| ValueError
| AssertionError (msg : string)
| NameError (name : string)
| ZeroDivisionError
| OverflowError.

Inductive result (A : Type) :=
| Ok (a : A)
| Raise (e : exn).
Arguments Ok {A} a.
Arguments Raise {A} e.

Definition bind {A B} (r : result A) (k : A -> result B) : result B :=
  match r with
  | Ok a => k a
  | Raise e => Raise e
  end.

(** [[f(x) for x in xs]]: the first exception aborts the comprehension. *)
Fixpoint traverse {A B} (f : A -> result B) (xs : list A) : result (list B) :=
  match xs with
  | [] => Ok []
  | x :: xs' =>
      bind (f x) (fun y => bind (traverse f xs') (fun ys => Ok (y :: ys)))
  end.

(** Index adjustment of a slice bound for a sequence of length [len]
    (step 1): a negative bound counts from the end, and every bound is
    clamped into [0 .. len]. *)
Definition adjust_index (len i : Z) : Z :=
  if (i <? 0)%Z then Z.max 0 (i + len) else Z.min i len.

(** [l[start:stop]]; [None] is an omitted bound. *)
Definition slice {A} (l : list A) (start stop : option Z) : list A :=
  let len := Z.of_nat (length l) in
  let lo := from_option (adjust_index len) 0%Z start in
  let hi := from_option (adjust_index len) len stop in
  take (Z.to_nat (hi - lo)) (drop (Z.to_nat lo) l).

(** The names a function body can read without binding them itself:
    those bound by the module's top-level statements (its imports and
    its [def]s), then the builtins. *)
Definition load_global (globals builtins : list string) (name : string)
  : result unit :=
  if bool_decide (name ∈ globals) then Ok tt
  else if bool_decide (name ∈ builtins) then Ok tt
  else Raise (NameError name).

Definition builtins : list string :=
  [ "abs"; "aiter"; "all"; "anext"; "any"; "ascii"; "bin"; "bool";
    "breakpoint"; "bytearray"; "bytes"; "callable"; "chr"; "classmethod";
    "compile"; "complex"; "copyright"; "credits"; "delattr"; "dict"; "dir";
    "divmod"; "enumerate"; "eval"; "exec"; "exit"; "filter"; "float";
    "format"; "frozenset"; "getattr"; "globals"; "hasattr"; "hash"; "help";
    "hex"; "id"; "input"; "int"; "isinstance"; "issubclass"; "iter"; "len";
    "license"; "list"; "locals"; "map"; "max"; "memoryview"; "min"; "next";
    "object"; "oct"; "open"; "ord"; "pow"; "print"; "property"; "quit";
    "range"; "repr"; "reversed"; "round"; "set"; "setattr"; "slice";
    "sorted"; "staticmethod"; "str"; "sum"; "super"; "tuple"; "type";
    "vars"; "zip"; "__import__"; "__build_class__"; "__debug__";
    "__doc__"; "__loader__"; "__name__"; "__package__"; "__spec__";
    "True"; "False"; "None"; "Ellipsis"; "NotImplemented";
    "BaseException"; "BaseExceptionGroup"; "Exception"; "ExceptionGroup";
    "ArithmeticError"; "AssertionError"; "AttributeError";
    "BlockingIOError"; "BrokenPipeError"; "BufferError"; "BytesWarning";
    "ChildProcessError"; "ConnectionAbortedError"; "ConnectionError";
    "ConnectionRefusedError"; "ConnectionResetError"; "DeprecationWarning";
    "EOFError"; "EncodingWarning"; "EnvironmentError"; "FileExistsError";
    "FileNotFoundError"; "FloatingPointError"; "FutureWarning";
    "GeneratorExit"; "IOError"; "ImportError"; "ImportWarning";
    "IndentationError"; "IndexError"; "InterruptedError";
    "IsADirectoryError"; "KeyError"; "KeyboardInterrupt"; "LookupError";
    "MemoryError"; "ModuleNotFoundError"; "NameError";
    "NotADirectoryError"; "NotImplementedError"; "OSError";
    "OverflowError"; "PendingDeprecationWarning"; "PermissionError";
    "ProcessLookupError"; "RecursionError"; "ReferenceError";
    "ResourceWarning"; "RuntimeError"; "RuntimeWarning";
    "StopAsyncIteration"; "StopIteration"; "SyntaxError"; "SyntaxWarning";
    "SystemError"; "SystemExit"; "TabError"; "TimeoutError"; "TypeError";
    "UnboundLocalError"; "UnicodeDecodeError"; "UnicodeEncodeError";
    "UnicodeError"; "UnicodeTranslateError"; "UnicodeWarning";
    "UserWarning"; "ValueError"; "Warning"; "ZeroDivisionError" ]%string.

End Py.

Notation "x <- r ;; k" := (Py.bind r (fun x => k))
  (at level 100, r at next level, right associativity, only parsing).

(** ** The parts of numpy and scipy the module calls *)

Module Np.

Import Py.

(** The item type of an array with its arithmetic.  None of the
    operations raises: numpy signals an invalid or infinite result by a
    warning and a [nan] or [inf] item. *)
Class Dtype (F : Type) := {
  zero : F;
  one : F;
  add : F -> F -> F;
  subtract : F -> F -> F;
  multiply : F -> F -> F;
  true_divide : F -> F -> F;
  sqrt : F -> F;
  count : nat -> F;         (* a number of items, as an item *)
  equal_zero : F -> bool;   (* [x == 0] *)
}.

(** Items [d] of every row: column [d] of a 2-D array. *)
Definition column {X} (d : nat) (m : list (list X)) : list X :=
  omap (fun r => r !! d) m.

(** Exchange of the first two axes: [a.T] for a 2-D array and
    [np.transpose(a, (1, 0, 2))] for a 3-D one (whose items along the
    second axis are then whole lists). *)
Definition swapaxes01 {X} (m : list (list X)) : list (list X) :=
  match m with
  | [] => []
  | r0 :: _ => imap (fun d _ => column d m) r0
  end.

Definition shape2 {X} (m : list (list X)) : nat * nat :=
  (length m, match m with [] => 0 | r :: _ => length r end).

Definition shape3 {X} (t : list (list (list X))) : nat * nat * nat :=
  (shape2 t, match t with (c :: _) :: _ => length c | _ => 0 end).

(** [a[:, None]]: every item becomes a row of length 1. *)
Definition expand_dims {X} (v : list X) : list (list X) :=
  map (fun x => [x]) v.

(** [np.dstack(ms)] for 2-D arrays of one shape:
    [out[i][j][d] = ms[d][i][j]].  An empty sequence, or arrays of
    different shapes, are rejected. *)
Definition dstack {X} (ms : list (list (list X)))
  : result (list (list (list X))) :=
  match ms with
  | [] => Raise ValueError
  | m0 :: _ =>
      if forallb (fun m => bool_decide (shape2 m = shape2 m0)) ms
      then Ok (imap (fun i r0 =>
                 imap (fun j _ => omap (fun m => m !! i ≫= (.!! j)) ms) r0) m0)
      else Raise ValueError
  end.

(** [np.stack(hs)] for 3-D arrays of one shape, along a new first axis. *)
Definition stack {X} (hs : list (list (list (list X))))
  : result (list (list (list (list X)))) :=
  match hs with
  | [] => Raise ValueError
  | h0 :: _ =>
      if forallb (fun h => bool_decide (shape3 h = shape3 h0)) hs
      then Ok hs
      else Raise ValueError
  end.

(** All items of a 3-D array, in index order. *)
Definition ravel {X} (t : list (list (list X))) : list X :=
  concat (concat t).

Section Reductions.
Context {F : Type} `{Dtype F}.

(** [np.add.reduce] over the items met along one axis, or over a whole
    raveled array: the items are added to the identity in index order.
    (numpy may add the items of a long axis in pairs instead, which can
    change the last bits of a sum; the sums evaluated in this file have at
    most three items.) *)
Definition sum (l : list F) : F := fold_left add l zero.

(** [np.mean]: the sum divided by the number of items. *)
Definition mean (l : list F) : F :=
  true_divide (sum l) (count (length l)).

(** [np.std]: the square root of the mean of the squared deviations
    from the mean. *)
Definition std (l : list F) : F :=
  let arrmean := mean l in
  let x := map (fun v => subtract v arrmean) l in
  let x := map (fun v => multiply v v) x in
  sqrt (true_divide (sum x) (count (length l))).

(** [np.mean(a, axis=0, keepdims=True)] and
    [np.std(a, axis=0, keepdims=True)] of a 2-D array: the one row
    of the shape (1, D) result. *)
Definition mean_axis0 (a : list (list F)) : list F :=
  map mean (swapaxes01 a).
Definition std_axis0 (a : list (list F)) : list F :=
  map std (swapaxes01 a).

(** [a op row] for [a] of shape (T, D) and [row] of shape (1, D):
    the row is broadcast along the first axis. *)
Definition broadcast_rows (op : F -> F -> F) (a : list (list F)) (row : list F)
  : list (list F) :=
  map (fun r => zip_with op r row) a.

End Reductions.

End Np.

Module Scipy.

(** [scipy.linalg.hankel(c, r)]: the values [c] followed by [r[1:]], read
    with both strides equal to one item: row [a] starts at value [a] and
    has [len(r)] items; there are [len(c)] rows. *)
Definition hankel {A} (c r : list A) : list (list A) :=
  let vals := c ++ drop 1 r in
  map (fun a => take (length r) (drop a vals)) (seq 0 (length c)).

End Scipy.

(** ** Binary64 numbers *)

Module F64.

Import Py.

Definition prec : Z := 53.
Definition emax : Z := 1024.

Abbreviation float := spec_float.

Definition add : float -> float -> float := SFadd prec emax.
Definition sub : float -> float -> float := SFsub prec emax.
Definition mul : float -> float -> float := SFmul prec emax.
Definition div : float -> float -> float := SFdiv prec emax.
Definition sqrt : float -> float := SFsqrt prec emax.

(** The nearest binary64 number to an integer (ties to even); an
    infinity when the integer is out of range. *)
Definition of_Z (z : Z) : float := binary_normalize prec emax z 0 false.

Definition zero : float := S754_zero false.
Definition one : float := of_Z 1.

(** [x == 0.0]: true of both zeros, false of [nan]. *)
Definition is_zero (x : float) : bool := SFeqb x zero.

(** [float(n)] for a Python integer [n], as in [x * n]. *)
Definition py_of_int (z : Z) : result float :=
  match of_Z z with
  | S754_infinity _ => Raise OverflowError
  | f => Ok f
  end.

(** [x / y] for two Python floats. *)
Definition py_truediv (x y : float) : result float :=
  if is_zero y then Raise ZeroDivisionError else Ok (div x y).

(** [int(x)]: the integer part of [x], the fraction discarded. *)
Definition py_int (x : float) : result Z :=
  match x with
  | S754_nan => Raise ValueError
  | S754_infinity _ => Raise OverflowError
  | S754_zero _ => Ok 0%Z
  | S754_finite s m e => Ok (cond_Zopp s (Z.shiftl (Zpos m) e))
  end.

(** [round(x)], the integer nearest to [x], a tie going to the even one:
    the conversion the spec words for [n_split]. *)
Definition py_round (x : float) : result Z :=
  match x with
  | S754_nan => Raise ValueError
  | S754_infinity _ => Raise OverflowError
  | S754_zero _ => Ok 0%Z
  | S754_finite s m (Zneg k) =>
      let d := (2 ^ Zpos k)%Z in
      let n := (Zpos m / d)%Z in
      let r := (Zpos m mod d)%Z in
      Ok (cond_Zopp s
            match (2 * r ?= d)%Z with
            | Lt => n
            | Gt => (n + 1)%Z
            | Eq => if Z.even n then n else (n + 1)%Z
            end)
  | S754_finite s m e => Ok (cond_Zopp s (Zpos m * 2 ^ e)%Z)
  end.

(** The rational number a float stands for; [None] for [nan] and the
    infinities. *)
Definition value (x : float) : option Q :=
  match x with
  | S754_nan | S754_infinity _ => None
  | S754_zero _ => Some 0%Q
  | S754_finite s m (Zneg k) => Some (Qmake (cond_Zopp s (Zpos m)) (2 ^ k)%positive)
  | S754_finite s m e => Some (inject_Z (cond_Zopp s (Zpos m * 2 ^ e)%Z))
  end.


(** A finite number. *)
Definition is_finite (x : float) : bool :=
  match x with
  | S754_finite _ _ _ | S754_zero _ => true
  | S754_infinity _ | S754_nan => false
  end.

#[global] Instance dtype : Np.Dtype float := {|
  Np.zero := zero;
  Np.one := one;
  Np.add := add;
  Np.subtract := sub;
  Np.multiply := mul;
  Np.true_divide := div;
  Np.sqrt := sqrt;
  Np.count := fun n => of_Z (Z.of_nat n);
  Np.equal_zero := is_zero;
|}.

End F64.

(** ** Exact arithmetic: the real numbers as an item type *)

Module Exact.

#[global] Instance dtype : Np.Dtype R := {|
  Np.zero := 0%R;
  Np.one := 1%R;
  Np.add := Rplus;
  Np.subtract := Rminus;
  Np.multiply := Rmult;
  Np.true_divide := Rdiv;
  Np.sqrt := R_sqrt.sqrt;
  Np.count := INR;
  Np.equal_zero := fun x => if Req_dec_T x 0%R then true else false;
|}.

End Exact.

(** ** fnn.utils *)

Import Py.

(** The arrays [hankel_matrix] accepts, by rank. *)
Inductive ndarray (A : Type) :=
| Arr1 (v : list A)                      (* shape (T,) *)
| Arr2 (m : list (list A))               (* shape (T, D) *)
| Arr3 (b : list (list (list A))).       (* shape (N, T, D) *)
Arguments Arr1 {A} v.
Arguments Arr2 {A} m.
Arguments Arr3 {A} b.

(** What [hankel_matrix] returns, by rank. *)
Inductive embedding (A : Type) :=
| Emb3 (h : list (list (list A)))          (* shape (p, q, D) *)
| Emb4 (hs : list (list (list (list A)))). (* shape (N, p, q, D) *)
Arguments Emb3 {A} h.
Arguments Emb4 {A} hs.

Section Hankel.
Context {A : Type}.

(** [_hankel_matrix(data, q, p)] on a 1-D or 2-D series ([inl] is the
    1-D case, which the function first reshapes to (T, 1)). *)
Definition _hankel_matrix (data : list A + list (list A)) (q : Z) (p : option Z)
  : result (list (list (list A))) :=
  let data := match data with
              | inl v => Np.expand_dims v
              | inr m => m
              end in
  (* if not p: p = len(data) - q *)
  let p := match p with
           | None | Some 0%Z => (Z.of_nat (length data) - q)%Z
           | Some p => p
           end in
  let all_hmats :=
    map (fun row =>
           let first := slice row (Some (- (p + q))%Z) (Some (- p)%Z) in
           let last := slice row (Some (- p - 1)%Z) None in
           Scipy.hankel first last)
        (Np.swapaxes01 data) in
  out <- Np.dstack all_hmats ;;
  Ok (slice (Np.swapaxes01 out) None (Some (-1)%Z)).

Definition hankel_matrix (data : ndarray A) (q : Z) (p : option Z)
  : result (embedding A) :=
  match data with
  | Arr3 b =>
      hs <- traverse (fun item => _hankel_matrix (inr item) q p) b ;;
      out <- Np.stack hs ;;
      Ok (Emb4 out)
  | Arr1 v =>
      h <- _hankel_matrix (inr (Np.expand_dims v)) q p ;;
      Ok (Emb3 h)
  | Arr2 m =>
      h <- _hankel_matrix (inr m) q p ;;
      Ok (Emb3 h)
  end.

(** All items of an embedding, in index order. *)
Definition items (e : embedding A) : list A :=
  match e with
  | Emb3 h => Np.ravel h
  | Emb4 hs => concat (map Np.ravel hs)
  end.

(** An operation applied to every item. *)
Definition elementwise {B} (f : A -> B) (e : embedding A) : embedding B :=
  match e with
  | Emb3 h => Emb3 (map (map (map f)) h)
  | Emb4 hs => Emb4 (map (map (map (map f))) hs)
  end.

End Hankel.

(** [n_split = int((split/(1-split))*sample_size)] *)
Definition n_split (split : F64.float) (sample_size : Z) : result Z :=
  ratio <- F64.py_truediv split (F64.sub F64.one split) ;;
  size <- F64.py_of_int sample_size ;;
  F64.py_int (F64.mul ratio size).

(** The default [split=0.5] of [train_test]. *)
Definition split_default : F64.float := F64.div F64.one (F64.of_Z 2).

(** Lines 75 to 81 of [train_test]: the two Hankel matrices, before they
    are rescaled. *)
Definition train_test_hankel (dataset : list F64.float)
    (sample_size time_window : Z) (split : F64.float)
  : result (embedding F64.float * embedding F64.float) :=
  let n := Z.of_nat (length dataset) in
  n_split <- n_split split sample_size ;;
  if negb (sample_size + n_split <? n)%Z
  then Raise (AssertionError "Not enough data to make complete split") else
  hm_train <- hankel_matrix (Arr1 dataset) time_window (Some sample_size) ;;
  hm_test <- hankel_matrix
               (Arr1 (slice dataset None (Some (n_split + time_window)%Z)))
               time_window (Some sample_size) ;;
  Ok (hm_train, hm_test).

Definition train_test (dataset : list F64.float)
    (sample_size time_window : Z) (std split : F64.float)
  : result (embedding F64.float * embedding F64.float) :=
  hms <- train_test_hankel dataset sample_size time_window split ;;
  let '(hm_train, hm_test) := hms in
  let mn_train := Np.mean (items hm_train) in
  let std_train := Np.std (items hm_train) in
  let rescale item :=
    elementwise
      (fun x => F64.div (F64.sub x mn_train) (F64.mul std std_train)) item in
  Ok (rescale hm_train, rescale hm_test).

(** [standardize_ts(a, scale)] on a (T, D) series.  Nothing in it can
    raise: a division by zero is an [inf] or [nan] item in numpy. *)
Definition standardize_ts {F} `{Np.Dtype F} (a : list (list F)) (scale : F)
  : list (list F) :=
  let stds := Np.std_axis0 a in
  (* stds[stds==0] = 1 *)
  let stds := map (fun s => if Np.equal_zero s then Np.one else s) stds in
  Np.broadcast_rows Np.true_divide
    (Np.broadcast_rows Np.subtract a (Np.mean_axis0 a))
    (map (Np.multiply scale) stds).

(** What [standardize_ts] makes of an item [x] of a channel: shifted by the
    mean of the channel, divided by [scale] times its standard deviation,
    or by [scale * 1] when that is zero. *)
Definition standardize_value {F} `{Np.Dtype F} (channel : list F) (scale x : F)
  : F :=
  let sd := Np.std channel in
  Np.true_divide (Np.subtract x (Np.mean channel))
                 (Np.multiply scale (if Np.equal_zero sd then Np.one else sd)).

Definition standardize_item {F} `{Np.Dtype F} (a : list (list F)) (scale : F)
    (d : nat) (x : F) : F :=
  standardize_value (Np.column d a) scale x.


(** The names bound by the top-level statements of the module: lines 1 to
    10 (the imports) and every [def]. *)
Definition module_globals : list string :=
  [ "np"; "warnings"; "scipy"; "hankel"; "orthogonal_procrustes";
    "periodogram"; "argrelextrema"; "savgol_filter";
    "pdist"; "squareform"; "directed_hausdorff"; "procrustes"; "plt";
    "hankel_matrix"; "_hankel_matrix"; "train_test"; "standardize_ts";
    "arff_to_data"; "fixed_aspect_ratio"; "plot3dproj"; "lighter";
    "__name__"; "__doc__"; "__package__"; "__loader__"; "__spec__";
    "__file__"; "__cached__"; "__builtins__" ]%string.

Section Arff.
(** What [scipy.io.arff.loadarff] and the reshaping that follows it
    compute, from line 116 on, once the name [arff] is resolved: owned
    by the external library, and left open here. *)
Context {Dataset : Type}.
Variable load_and_reshape : string -> Z -> result Dataset.

(** [arff_to_data(path, fmt_spec)]: the first statement,
    [data, meta = arff.loadarff(path)], starts by reading the global
    name [arff]. *)
Definition arff_to_data (path : string) (fmt_spec : Z) : result Dataset :=
  _ <- load_global module_globals builtins "arff" ;;
  load_and_reshape path fmt_spec.

End Arff.

(** [lighter(clr, f)]: every component of the colour is moved towards 1
    by the fraction [f] of its gap to 1. *)
Definition lighter {F} `{Np.Dtype F} (clr : list F) (f : F) : list F :=
  let gaps := map (fun val => Np.multiply f (Np.subtract Np.one val)) clr in
  let new_clr := zip_with (fun gap val => Np.add val gap) gaps clr in
  new_clr.

(** ** Vocabulary of the statements *)

(** The list [f 0; ...; f (n-1)]. *)
Definition tabulate {X} (n : nat) (f : nat -> X) : list X := f <$> seq 0 n.

(** A 2-D array of shape (n, m): [n] rows of [m] items each. *)
Definition is_array2 {X} (n m : nat) (a : list (list X)) : Prop :=
  length a = n /\ Forall (fun r => length r = m) a.

(** A 3-D array of shape (n, m, k). *)
Definition is_array3 {X} (n m k : nat) (a : list (list (list X))) : Prop :=
  length a = n /\ Forall (is_array2 m k) a.

(** A 4-D array of shape (n, m, k, l). *)
Definition is_array4 {X} (n m k l : nat) (a : list (list (list (list X)))) : Prop :=
  length a = n /\ Forall (is_array3 m k l) a.

(** Item [a[t][d]] of a 2-D array. *)
Definition item2 {X} (a : list (list X)) (t d : nat) : option X :=
  match a !! t with
  | Some r => r !! d
  | None => None
  end.

(** Item [a[i][j][d]] of a 3-D array. *)
Definition item3 {X} (a : list (list (list X))) (i j d : nat) : option X :=
  match a !! i with
  | Some m => item2 m j d
  | None => None
  end.

(** [k] is [x] with its fraction discarded: the integer next to [x] on the
    side of zero. *)
Definition is_integer_part (k : Z) (x : Q) : Prop :=
  (0 <= x -> inject_Z k <= x < inject_Z k + 1)%Q /\
  (x <= 0 -> inject_Z k - 1 < x <= inject_Z k)%Q.

(** [n_split] as the spec words it:
    [round((split/(1-split)) * sample_size)]. *)
Definition n_split_round (split : F64.float) (sample_size : Z) : result Z :=
  ratio <- F64.py_truediv split (F64.sub F64.one split) ;;
  size <- F64.py_of_int sample_size ;;
  F64.py_round (F64.mul ratio size).

(** The sum of the squared deviations of the items of [l] from [mu], as
    [np.std] forms it. *)
Definition sum_sq (mu : R) (l : list R) : R :=
  Np.sum ((fun v => v * v)%R <$> ((fun v => v - mu)%R <$> l)).

(** The [p] windows of [q] consecutive rows of [data] that start at rows
    [start], [start + 1], ..., [start + p - 1]. *)
Definition windows {X} (data : list X) (start q p : nat) : list (list X) :=
  tabulate p (fun i => take q (drop (start + i) data)).

(** The index formula for the embedding of a (T, D) series as the spec
    words it: [H[i, j, d] = series[d][T - p - q + 1 + i + j]]. *)
Definition hankel_formula_plus_one {X} (data : list (list X)) (T D : nat)
    (q p : Z) : Prop :=
  exists H,
    hankel_matrix (Arr2 data) q (Some p) = Ok (Emb3 H) /\
    forall i j d x,
      (Z.of_nat i < p)%Z -> (Z.of_nat j < q)%Z -> d < D ->
      item3 H i j d = Some x ->
      item2 data (T - Z.to_nat p - Z.to_nat q + 1 + i + j) d = Some x.

(** * Properties *)

(** ** Lists built from an index function *)

Section Tabulate.
Context {X : Type}.

Lemma length_tabulate n (f : nat -> X) : length (tabulate n f) = n.
Proof. unfold tabulate. by rewrite length_fmap, length_seq. Qed.

Lemma lookup_tabulate n (f : nat -> X) i : i < n -> tabulate n f !! i = Some (f i).
Proof.
  intros Hi. unfold tabulate.
  by rewrite list_lookup_fmap, lookup_seq_lt.
Qed.

Lemma tabulate_ext n (f g : nat -> X) :
  (forall i, i < n -> f i = g i) -> tabulate n f = tabulate n g.
Proof.
  intros Hfg. unfold tabulate. apply list_fmap_ext.
  intros i x [-> ?]%lookup_seq. by apply Hfg.
Qed.

Lemma take_tabulate n m (f : nat -> X) : m <= n -> take m (tabulate n f) = tabulate m f.
Proof.
  intros Hm. unfold tabulate.
  rewrite <- fmap_take, take_seq. by rewrite Nat.min_l.
Qed.

Lemma tabulate_S n (f : nat -> X) : tabulate (S n) f = f 0 :: tabulate n (fun i => f (S i)).
Proof.
  unfold tabulate. simpl. f_equal.
  by rewrite <- fmap_S_seq, <- list_fmap_compose.
Qed.

Lemma imap_tabulate {Y} (g : nat -> X) (l : list Y) :
  imap (fun i (_ : Y) => g i) l = tabulate (length l) g.
Proof. apply imap_seq_0. Qed.

(** Reading [n] consecutive items one by one is taking a window. *)
Lemma omap_lookup_window (l : list X) s n :
  s + n <= length l ->
  omap (fun a => l !! (s + a)) (seq 0 n) = take n (drop s l).
Proof.
  revert s. induction n as [|n IH]; intros s Hs.
  - by rewrite take_0.
  - destruct (lookup_lt_is_Some_2 l s) as [x Hx]; [lia|].
    rewrite (drop_S _ _ _ Hx). cbn [seq take].
    rewrite <- fmap_S_seq. csimpl.
    rewrite Nat.add_0_r, Hx. f_equal.
    rewrite <- (IH (S s)) by lia.
    clear. generalize (seq 0 n) as js.
    induction js as [|j js IHjs]; [done|]. csimpl.
    rewrite Nat.add_succ_r, IHjs. done.
Qed.

Lemma omap_tabulate {Y} (f : X -> option Y) (g : nat -> X) n :
  omap f (tabulate n g) = omap (fun i => f (g i)) (seq 0 n).
Proof.
  unfold tabulate. generalize (seq 0 n) as js.
  induction js as [|j js IH]; [done|]. csimpl. by rewrite IH.
Qed.

Lemma omap_ext_seq {Y} (f g : nat -> option Y) n :
  (forall i, i < n -> f i = g i) ->
  omap f (seq 0 n) = omap g (seq 0 n).
Proof.
  intros Hfg. apply list_omap_ext, Forall2_same_length_lookup.
  split; [done|]. intros i x y [-> ?]%lookup_seq [-> ?]%lookup_seq.
  by apply Hfg.
Qed.

End Tabulate.

(** ** Slices *)

Section Slices.
Context {X : Type}.
Implicit Types l : list X.

(** [l[lo - len : hi - len]] with both bounds counted from the end. *)
Lemma slice_from_end l (lo hi : nat) :
  lo <= hi -> hi < length l ->
  slice l (Some (Z.of_nat lo - Z.of_nat (length l))%Z)
          (Some (Z.of_nat hi - Z.of_nat (length l))%Z)
  = take (hi - lo) (drop lo l).
Proof.
  intros Hlo Hhi. unfold slice, adjust_index. cbn [from_option].
  destruct (Z.ltb_spec (Z.of_nat lo - Z.of_nat (length l)) 0); [|lia].
  destruct (Z.ltb_spec (Z.of_nat hi - Z.of_nat (length l)) 0); [|lia].
  f_equal; [|f_equal]; lia.
Qed.

(** [l[lo - len :]]. *)
Lemma slice_suffix l (lo : nat) :
  lo < length l ->
  slice l (Some (Z.of_nat lo - Z.of_nat (length l))%Z) None = drop lo l.
Proof.
  intros Hlo. unfold slice, adjust_index. cbn [from_option].
  destruct (Z.ltb_spec (Z.of_nat lo - Z.of_nat (length l)) 0); [|lia].
  match goal with
  | |- take _ (drop ?k _) = _ => replace k with lo by lia
  end.
  apply take_ge. rewrite length_drop. lia.
Qed.

(** [l[:-1]]. *)
Lemma slice_drop_last l : slice l None (Some (-1)%Z) = take (length l - 1) l.
Proof.
  unfold slice, adjust_index. cbn [from_option].
  change (-1 <? 0)%Z with true. cbv iota.
  change (Z.to_nat 0) with 0. rewrite drop_0. f_equal. lia.
Qed.

End Slices.

(** ** Columns, axis exchange and stacking *)

Lemma omap_lookup_total {X Y} (f : X -> option Y) (l : list X) i :
  Forall (fun x => is_Some (f x)) l ->
  omap f l !! i = l !! i ≫= f.
Proof.
  intros Hl. revert i. induction Hl as [|x l [y Hy] _ IH]; intros i; [done|].
  csimpl. rewrite Hy. destruct i as [|i]; csimpl; [done|]. apply IH.
Qed.

Lemma length_omap_total {X Y} (f : X -> option Y) (l : list X) :
  Forall (fun x => is_Some (f x)) l -> length (omap f l) = length l.
Proof.
  induction 1 as [|x l [y Hy] _ IH]; [done|].
  csimpl. rewrite Hy. simpl. by rewrite IH.
Qed.

Section ArrayFacts.
Context {X : Type}.


Lemma column_length n m (a : list (list X)) d :
  is_array2 n m a -> d < m -> length (Np.column d a) = n.
Proof.
  intros [<- Hrows] Hd. unfold Np.column. apply length_omap_total.
  eapply Forall_impl; [exact Hrows|]. simpl. intros r Hr.
  apply lookup_lt_is_Some_2. lia.
Qed.

Lemma column_lookup n m (a : list (list X)) d t :
  is_array2 n m a -> d < m -> Np.column d a !! t = item2 a t d.
Proof.
  intros [_ Hrows] Hd. unfold Np.column, item2.
  rewrite omap_lookup_total.
  - by destruct (a !! t).
  - eapply Forall_impl; [exact Hrows|]. simpl. intros r Hr.
    apply lookup_lt_is_Some_2. lia.
Qed.

Lemma swapaxes01_array n m (a : list (list X)) :
  is_array2 n m a -> 0 < n ->
  Np.swapaxes01 a = tabulate m (fun d => Np.column d a).
Proof.
  intros [Hn Hrows] Hpos. destruct a as [|r0 a]; [simpl in Hn; lia|].
  unfold Np.swapaxes01. rewrite imap_tabulate.
  by rewrite (Forall_inv Hrows).
Qed.

(** The columns of the exchanged array are the rows of the array. *)
Lemma column_swapaxes01 n m (a : list (list X)) t r :
  is_array2 n m a -> a !! t = Some r ->
  Np.column t (Np.swapaxes01 a) = r.
Proof.
  intros Ha Ht.
  assert (0 < n) as Hpos.
  { destruct Ha as [<- _]. apply lookup_lt_Some in Ht. lia. }
  assert (length r = m) as Hr.
  { destruct Ha as [_ Hrows]. by eapply Forall_lookup_1 in Hrows. }
  rewrite (swapaxes01_array n m) by done.
  unfold Np.column at 1. rewrite omap_tabulate.
  rewrite (omap_ext_seq _ (fun d => r !! (0 + d))).
  - rewrite omap_lookup_window by (simpl; lia).
    rewrite drop_0. apply take_ge. lia.
  - intros d Hd. rewrite (column_lookup n m) by done.
    unfold item2. by rewrite Ht.
Qed.

Lemma is_array2_tabulate n m (g : nat -> list X) :
  (forall i, i < n -> length (g i) = m) -> is_array2 n m (tabulate n g).
Proof.
  intros Hg. split; [apply length_tabulate|].
  apply Forall_lookup_2. intros i r Hi.
  assert (i < n) as Hlt.
  { apply lookup_lt_Some in Hi. by rewrite length_tabulate in Hi. }
  rewrite lookup_tabulate in Hi by done. injection Hi as <-. by apply Hg.
Qed.

Lemma shape2_array n m (a : list (list X)) :
  is_array2 n m a -> 0 < n -> Np.shape2 a = (n, m).
Proof.
  intros [Hn Hrows] Hpos. destruct a as [|r0 a]; [simpl in Hn; lia|].
  unfold Np.shape2. by rewrite Hn, (Forall_inv Hrows).
Qed.

(** Stacking [D >= 1] arrays of shape (n, m) along a third axis. *)
Lemma dstack_arrays n m (ms : list (list (list X))) :
  ms <> [] -> 0 < n -> Forall (is_array2 n m) ms ->
  Np.dstack ms
  = Ok (tabulate n (fun i =>
          tabulate m (fun j => omap (fun a => a !! i ≫= (.!! j)) ms))).
Proof.
  intros Hne Hpos Hms. destruct ms as [|m0 ms']; [done|].
  unfold Np.dstack.
  assert (forallb (fun a => bool_decide (Np.shape2 a = Np.shape2 m0)) (m0 :: ms') = true)
    as ->.
  { apply forallb_forall. intros a Ha%list_elem_of_In.
    apply bool_decide_eq_true.
    rewrite (shape2_array n m a), (shape2_array n m m0); try done.
    - by apply (Forall_inv Hms).
    - by eapply Forall_forall in Hms. }
  f_equal. pose proof (Forall_inv Hms) as [Hn0 Hrows0].
  rewrite (imap_ext _ (fun i _ =>
    tabulate m (fun j => omap (fun a => a !! i ≫= (.!! j)) (m0 :: ms')))).
  - by rewrite imap_tabulate, Hn0.
  - intros i r0 Hi. cbv beta. rewrite imap_tabulate.
    by rewrite (Forall_lookup_1 _ _ _ _ Hrows0 Hi).
Qed.

End ArrayFacts.

(** ** The delay embedding in closed form *)

Section HankelFacts.
Context {X : Type}.

Lemma tabulate_window {Y} (l : list Y) s n (g : nat -> Y) :
  s + n <= length l ->
  (forall j, j < n -> l !! (s + j) = Some (g j)) ->
  tabulate n g = take n (drop s l).
Proof.
  intros Hlen Hg. apply (list_eq_same_length _ _ n).
  - rewrite length_take, length_drop. lia.
  - apply length_tabulate.
  - intros j x y Hj. rewrite lookup_tabulate by done.
    rewrite lookup_take_lt, lookup_drop, Hg by done. congruence.
Qed.

(** What [hankel(first, last)] is for one channel: row [a] holds the
    [p + 1] values from position [T - p - q + a] on. *)
Lemma hankel_channel (col : list X) (T : nat) (p q : Z) :
  length col = T -> (1 <= p)%Z -> (1 <= q)%Z -> (p + q <= Z.of_nat T)%Z ->
  Scipy.hankel (slice col (Some (- (p + q))%Z) (Some (- p)%Z))
               (slice col (Some (- p - 1)%Z) None)
  = tabulate (Z.to_nat q) (fun a =>
      take (Z.to_nat p + 1) (drop (T - Z.to_nat p - Z.to_nat q + a) col)).
Proof.
  intros HT Hp Hq HpqT.
  set (k := T - Z.to_nat p - Z.to_nat q).
  replace (- (p + q))%Z with (Z.of_nat k - Z.of_nat (length col))%Z by lia.
  replace (- p)%Z with (Z.of_nat (k + Z.to_nat q) - Z.of_nat (length col))%Z by lia.
  replace (Z.of_nat (k + Z.to_nat q) - Z.of_nat (length col) - 1)%Z
    with (Z.of_nat (k + Z.to_nat q - 1) - Z.of_nat (length col))%Z by lia.
  rewrite slice_from_end, slice_suffix by lia.
  replace (k + Z.to_nat q - k) with (Z.to_nat q) by lia.
  unfold Scipy.hankel, tabulate.
  rewrite drop_drop.
  replace (k + Z.to_nat q - 1 + 1) with (k + Z.to_nat q) by lia.
  rewrite <- (drop_drop col (Z.to_nat q) k), take_drop.
  rewrite length_take, !length_drop.
  replace (Z.to_nat q `min` (length col - k)) with (Z.to_nat q) by lia.
  replace (length col - (k + Z.to_nat q - 1)) with (Z.to_nat p + 1) by lia.
  apply list_fmap_ext. intros i a _. by rewrite drop_drop.
Qed.

Lemma length_windows {Y} (data : list Y) s q p :
  length (windows data s q p) = p.
Proof. apply length_tabulate. Qed.

Lemma lookup_windows {Y} (data : list Y) s q p i :
  i < p -> windows data s q p !! i = Some (take q (drop (s + i) data)).
Proof. intros Hi. unfold windows. by rewrite lookup_tabulate. Qed.

Lemma item3_windows (data : list (list X)) s q p i j d :
  i < p -> j < q ->
  item3 (windows data s q p) i j d = item2 data (s + i + j) d.
Proof.
  intros Hi Hj. unfold item3. rewrite lookup_windows by done.
  unfold item2. rewrite lookup_take_lt, lookup_drop by done.
  done.
Qed.

(** [_hankel_matrix] on a (T, D) series, with [p >= 1] rows asked for:
    the windows of [q] consecutive samples starting at samples
    [T - p - q], ..., [T - q - 1]. *)
Lemma _hankel_matrix_windows (data : list (list X)) (T D : nat) (q p : Z) :
  is_array2 T D data -> 0 < D ->
  (1 <= q)%Z -> (1 <= p)%Z -> (p + q <= Z.of_nat T)%Z ->
  _hankel_matrix (inr data) q (Some p)
  = Ok (windows data (T - Z.to_nat p - Z.to_nat q) (Z.to_nat q) (Z.to_nat p)).
Proof.
  intros Hdata HD Hq Hp HpqT.
  set (k := T - Z.to_nat p - Z.to_nat q).
  unfold _hankel_matrix.
  assert (match p with 0%Z => (Z.of_nat (length data) - q)%Z | _ => p end = p) as ->
    by (destruct p; lia || done).
  rewrite (swapaxes01_array T D) by (done || lia).
  unfold tabulate at 1. rewrite <- list_fmap_compose.
  change (_ <$> seq 0 D) with
    (tabulate D (fun d =>
       Scipy.hankel (slice (Np.column d data) (Some (- (p + q))%Z) (Some (- p)%Z))
                    (slice (Np.column d data) (Some (- p - 1)%Z) None))).
  rewrite (tabulate_ext D _ (fun d =>
    tabulate (Z.to_nat q) (fun a =>
      take (Z.to_nat p + 1) (drop (k + a) (Np.column d data))))).
  2:{ intros d Hd. apply hankel_channel; try done.
      by apply (column_length T D). }
  set (ms := tabulate D _).
  assert (Forall (is_array2 (Z.to_nat q) (Z.to_nat p + 1)) ms) as Hms.
  { apply Forall_lookup_2. intros d m Hm.
    assert (d < D) as Hd.
    { apply lookup_lt_Some in Hm. unfold ms in Hm.
      by rewrite length_tabulate in Hm. }
    unfold ms in Hm. rewrite lookup_tabulate in Hm by done.
    injection Hm as <-. apply is_array2_tabulate. intros a Ha.
    rewrite length_take, length_drop, (column_length T D) by done. lia. }
  rewrite (dstack_arrays (Z.to_nat q) (Z.to_nat p + 1)); [|..|done]; cycle 1.
  { intros Hnil. apply (f_equal length) in Hnil. unfold ms in Hnil.
    rewrite length_tabulate in Hnil. simpl in Hnil. lia. }
  { lia. }
  cbn [bind].
  (* out[a] is the window of p + 1 rows of data from row k + a on *)
  rewrite (tabulate_ext (Z.to_nat q) _
             (fun a => take (Z.to_nat p + 1) (drop (k + a) data))).
  2:{ intros a Ha. apply tabulate_window.
      { destruct Hdata as [-> _]. lia. }
      intros b Hb.
      destruct (lookup_lt_is_Some_2 data (k + a + b)) as [r Hr].
      { destruct Hdata as [-> _]. lia. }
      rewrite Hr. f_equal. unfold ms. rewrite omap_tabulate.
      rewrite (omap_ext_seq _ (fun d => r !! (0 + d))).
      - assert (length r = D) as Hlen.
        { destruct Hdata as [_ Hrows]. by eapply Forall_lookup_1 in Hrows. }
        rewrite omap_lookup_window by (simpl; lia).
        rewrite drop_0. symmetry. apply take_ge. lia.
      - intros d Hd. rewrite lookup_tabulate by done. csimpl.
        rewrite lookup_take_lt, lookup_drop by lia.
        rewrite (column_lookup T D) by done.
        unfold item2. by rewrite Hr. }
  f_equal.
  rewrite (swapaxes01_array (Z.to_nat q) (Z.to_nat p + 1)); [| |lia].
  2:{ apply is_array2_tabulate. intros a Ha.
      rewrite length_take, length_drop. destruct Hdata as [-> _]. lia. }
  rewrite slice_drop_last, length_tabulate.
  rewrite take_tabulate by lia.
  replace (Z.to_nat p + 1 - 1) with (Z.to_nat p) by lia.
  unfold windows. apply tabulate_ext. intros b Hb.
  unfold Np.column. rewrite omap_tabulate.
  rewrite (omap_ext_seq _ (fun a => data !! (k + b + a))).
  - apply omap_lookup_window. destruct Hdata as [-> _]. lia.
  - intros a Ha. rewrite lookup_take_lt, lookup_drop by lia.
    f_equal. lia.
Qed.

End HankelFacts.

(** ** hankel_matrix *)

Section HankelMatrix.
Context {X : Type}.

Lemma is_array3_windows (data : list (list X)) (T D s q p : nat) :
  is_array2 T D data -> s + p + q <= T + 1 ->
  is_array3 p q D (windows data s q p).
Proof.
  intros [HT Hrows] Hs. split; [apply length_windows|].
  apply Forall_lookup_2. intros i w Hw.
  assert (i < p) as Hi.
  { apply lookup_lt_Some in Hw. by rewrite length_windows in Hw. }
  rewrite lookup_windows in Hw by done. injection Hw as <-. split.
  - rewrite length_take, length_drop. lia.
  - by apply Forall_take, Forall_drop.
Qed.

Lemma item2_is_Some (a : list (list X)) (n m t d : nat) :
  is_array2 n m a -> t < n -> d < m -> is_Some (item2 a t d).
Proof.
  intros [Hn Hrows] Ht Hd. unfold item2.
  destruct (lookup_lt_is_Some_2 a t) as [r Hr]; [lia|]. rewrite Hr.
  apply lookup_lt_is_Some_2.
  by rewrite (Forall_lookup_1 _ _ _ _ Hrows Hr).
Qed.

Lemma hankel_matrix_windows (data : list (list X)) (T D : nat) (q p : Z) :
  is_array2 T D data -> 0 < D ->
  (1 <= q)%Z -> (1 <= p)%Z -> (p + q <= Z.of_nat T)%Z ->
  hankel_matrix (Arr2 data) q (Some p)
  = Ok (Emb3 (windows data (T - Z.to_nat p - Z.to_nat q)
                      (Z.to_nat q) (Z.to_nat p))).
Proof.
  intros. unfold hankel_matrix.
  by rewrite (_hankel_matrix_windows data T D).
Qed.

(** A 1-D series is embedded as a series with one channel. *)
Lemma hankel_matrix_windows_1d (v : list X) (q p : Z) :
  (1 <= q)%Z -> (1 <= p)%Z -> (p + q <= Z.of_nat (length v))%Z ->
  hankel_matrix (Arr1 v) q (Some p)
  = Ok (Emb3 (windows (Np.expand_dims v)
                      (length v - Z.to_nat p - Z.to_nat q)
                      (Z.to_nat q) (Z.to_nat p))).
Proof.
  intros Hq Hp HpqT. unfold hankel_matrix.
  rewrite (_hankel_matrix_windows _ (length v) 1); try done; [|lia].
  unfold Np.expand_dims. split; [by rewrite length_map|].
  by apply Forall_fmap, Forall_true.
Qed.

Lemma traverse_Ok {Y W} (f : Y -> result W) (g : Y -> W) (l : list Y) :
  Forall (fun y => f y = Ok (g y)) l -> traverse f l = Ok (g <$> l).
Proof.
  induction 1 as [|y l Hy _ IH]; [done|].
  cbn [traverse]. rewrite Hy, IH. done.
Qed.

Lemma shape3_array (h : list (list (list X))) (n m k : nat) :
  is_array3 n m k h -> 0 < n -> 0 < m -> Np.shape3 h = (n, m, k).
Proof.
  intros [Hn Hitems] Hpos Hm.
  destruct h as [|h0 h]; [simpl in Hn; lia|].
  pose proof (Forall_inv Hitems) as [Hm0 Hrows0].
  destruct h0 as [|c h0]; [simpl in Hm0; lia|].
  unfold Np.shape3, Np.shape2.
  by rewrite Hn, Hm0, (Forall_inv Hrows0).
Qed.

Lemma hankel_matrix_batch (batch : list (list (list X))) (N T D : nat) (q p : Z) :
  is_array3 N T D batch -> 0 < N -> 0 < D ->
  (1 <= q)%Z -> (1 <= p)%Z -> (p + q <= Z.of_nat T)%Z ->
  hankel_matrix (Arr3 batch) q (Some p)
  = Ok (Emb4 ((fun item => windows item (T - Z.to_nat p - Z.to_nat q)
                             (Z.to_nat q) (Z.to_nat p)) <$> batch)).
Proof.
  intros [HN Hitems] HNpos HD Hq Hp HpqT. unfold hankel_matrix.
  rewrite (traverse_Ok _ (fun item =>
    windows item (T - Z.to_nat p - Z.to_nat q) (Z.to_nat q) (Z.to_nat p))).
  2:{ eapply Forall_impl; [exact Hitems|]. simpl. intros item Hitem.
      by apply (_hankel_matrix_windows item T D). }
  cbn [bind]. unfold Np.stack.
  destruct batch as [|item0 batch]; [simpl in HN; lia|].
  rewrite fmap_cons.
  match goal with
  | |- context [forallb ?f ?l] => assert (forallb f l = true) as ->
  end; [|done].
  apply forallb_forall. intros h Hh%list_elem_of_In.
  apply bool_decide_eq_true.
  assert (forall item : list (list X), is_array2 T D item ->
    Np.shape3 (windows item (T - Z.to_nat p - Z.to_nat q)
                 (Z.to_nat q) (Z.to_nat p))
    = (Z.to_nat p, Z.to_nat q, D)) as Hshape.
  { intros item Hitem. apply shape3_array; [|lia..].
    apply (is_array3_windows item T D); [done|lia]. }
  rewrite (Hshape item0) by apply (Forall_inv Hitems).
  apply elem_of_cons in Hh as [->|Hh].
  - apply Hshape, (Forall_inv Hitems).
  - apply list_elem_of_fmap in Hh as (item & -> & Hin).
    apply Hshape. apply Forall_inv_tail in Hitems.
    by eapply Forall_forall in Hitems.
Qed.

End HankelMatrix.

Section HankelClaims.
Context {X : Type}.

(** C1, as amended.  For a series of [T] samples and [D >= 1] channels
    and for [q >= 1], [p >= 1] with [T >= p + q], [hankel_matrix] returns
    [H] with [H[i, j, d] = series[T - p - q + i + j][d]] for all [i < p],
    [j < q], [d < D]: the rows are the [p] successive windows of [q]
    samples that start at samples [T - p - q], ..., [T - q - 1] (the
    last sample of the series is in no window). *)
Theorem hankel_matrix_item (data : list (list X)) (T D : nat) (q p : Z) :
  is_array2 T D data -> 0 < D ->
  (1 <= q)%Z -> (1 <= p)%Z -> (p + q <= Z.of_nat T)%Z ->
  exists H,
    hankel_matrix (Arr2 data) q (Some p) = Ok (Emb3 H) /\
    H = windows data (T - Z.to_nat p - Z.to_nat q) (Z.to_nat q) (Z.to_nat p) /\
    forall i j d,
      (Z.of_nat i < p)%Z -> (Z.of_nat j < q)%Z -> d < D ->
      exists x,
        item3 H i j d = Some x /\
        item2 data (T - Z.to_nat p - Z.to_nat q + i + j) d = Some x.
Proof.
  intros Hdata HD Hq Hp HpqT. eexists. split; [|split; [reflexivity|]].
  { by apply (hankel_matrix_windows data T D). }
  intros i j d Hi Hj Hd.
  rewrite item3_windows by lia.
  destruct (item2_is_Some data T D
              (T - Z.to_nat p - Z.to_nat q + i + j) d) as [x Hx];
    [done|lia|done|].
  by exists x.
Qed.

(** C4.  For [q >= 1], [p >= 1] and [T >= p + q], [hankel_matrix] returns
    an array of shape (p, q, D) on a series of shape (T, D), and an array
    of shape (N, p, q, D) on a batch of shape (N, T, D) (with at least one
    series and one channel). *)
Theorem hankel_matrix_shape (data : list (list X))
    (batch : list (list (list X))) (N T D : nat) (q p : Z) :
  is_array2 T D data -> is_array3 N T D batch -> 0 < N -> 0 < D ->
  (1 <= q)%Z -> (1 <= p)%Z -> (p + q <= Z.of_nat T)%Z ->
  (exists H,
      hankel_matrix (Arr2 data) q (Some p) = Ok (Emb3 H) /\
      is_array3 (Z.to_nat p) (Z.to_nat q) D H) /\
  (exists Hs,
      hankel_matrix (Arr3 batch) q (Some p) = Ok (Emb4 Hs) /\
      is_array4 N (Z.to_nat p) (Z.to_nat q) D Hs).
Proof.
  intros Hdata Hbatch HN HD Hq Hp HpqT. split.
  - eexists. split.
    + by apply (hankel_matrix_windows data T D).
    + apply (is_array3_windows data T D); [done|lia].
  - eexists. split.
    + by apply (hankel_matrix_batch batch N T D).
    + destruct Hbatch as [HlenN Hitems]. split.
      * by rewrite length_fmap.
      * apply Forall_fmap. eapply Forall_impl; [exact Hitems|].
        simpl. intros item Hitem.
        apply (is_array3_windows item T D); [done|lia].
Qed.

(** C5.  Every channel slice of the output is a Hankel matrix:
    [H[i, j, d] = H[i', j', d]] whenever [i + j = i' + j']. *)
Theorem hankel_matrix_antidiagonals (data : list (list X)) (T D : nat) (q p : Z) :
  is_array2 T D data -> 0 < D ->
  (1 <= q)%Z -> (1 <= p)%Z -> (p + q <= Z.of_nat T)%Z ->
  exists H,
    hankel_matrix (Arr2 data) q (Some p) = Ok (Emb3 H) /\
    forall i j i' j' d,
      (Z.of_nat i < p)%Z -> (Z.of_nat j < q)%Z ->
      (Z.of_nat i' < p)%Z -> (Z.of_nat j' < q)%Z -> d < D ->
      i + j = i' + j' ->
      exists x, item3 H i j d = Some x /\ item3 H i' j' d = Some x.
Proof.
  intros Hdata HD Hq Hp HpqT. eexists. split.
  { by apply (hankel_matrix_windows data T D). }
  intros i j i' j' d Hi Hj Hi' Hj' Hd Hdiag.
  rewrite !item3_windows by lia.
  replace (T - Z.to_nat p - Z.to_nat q + i' + j')
    with (T - Z.to_nat p - Z.to_nat q + i + j) by lia.
  destruct (item2_is_Some data T D
              (T - Z.to_nat p - Z.to_nat q + i + j) d) as [x Hx];
    [done|lia|done|].
  by exists x.
Qed.

(** C6.  On a batch of [N] series the output has [N] items along its
    first axis, and item [i] is what [hankel_matrix] returns on series
    [i] alone. *)
Theorem hankel_matrix_batch_slices (batch : list (list (list X)))
    (N T D : nat) (q p : Z) :
  is_array3 N T D batch -> 0 < N -> 0 < D ->
  (1 <= q)%Z -> (1 <= p)%Z -> (p + q <= Z.of_nat T)%Z ->
  exists Hs,
    hankel_matrix (Arr3 batch) q (Some p) = Ok (Emb4 Hs) /\
    length Hs = N /\
    forall i item,
      batch !! i = Some item ->
      exists H,
        hankel_matrix (Arr2 item) q (Some p) = Ok (Emb3 H) /\
        Hs !! i = Some H.
Proof.
  intros Hbatch HN HD Hq Hp HpqT. eexists. split; [|split].
  - by apply (hankel_matrix_batch batch N T D).
  - rewrite length_fmap. by destruct Hbatch.
  - intros i item Hitem. eexists. split.
    + apply (hankel_matrix_windows item T D); try done.
      destruct Hbatch as [_ Hitems].
      by eapply Forall_lookup_1 in Hitems.
    + by rewrite list_lookup_fmap, Hitem.
Qed.

End HankelClaims.

(** C1, as the spec words it, fails: with [T = 5], [q = 2] and [p = 2] the
    item [H[0, 0, 0]] is sample [T - p - q = 1] of the series, not sample
    [T - p - q + 1 = 2]. *)
Lemma hankel_formula_plus_one_fails :
  ~ hankel_formula_plus_one [[0]; [1]; [2]; [3]; [4]] 5 1 2 2.
Proof.
  intros (H & HH & Hitems).
  vm_compute in HH. injection HH as <-.
  specialize (Hitems 0 0 0 1 ltac:(lia) ltac:(lia) ltac:(lia) eq_refl).
  vm_compute in Hitems. discriminate.
Qed.

Lemma hankel_matrix_item_witness :
  exists H,
    hankel_matrix (Arr2 [[0]; [1]; [2]; [3]; [4]]) 2 (Some 2%Z) = Ok (Emb3 H) /\
    H = windows [[0]; [1]; [2]; [3]; [4]] 1 2 2 /\
    forall i j d,
      (Z.of_nat i < 2)%Z -> (Z.of_nat j < 2)%Z -> d < 1 ->
      exists x,
        item3 H i j d = Some x /\
        item2 [[0]; [1]; [2]; [3]; [4]] (1 + i + j) d = Some x.
Proof.
  apply (hankel_matrix_item [[0]; [1]; [2]; [3]; [4]] 5 1 2 2).
  - split; [reflexivity|]. repeat constructor.
  - lia.
  - lia.
  - lia.
  - lia.
Defined.

Lemma hankel_matrix_shape_witness :
  (exists H,
      hankel_matrix (Arr2 [[0; 10]; [1; 11]; [2; 12]; [3; 13]; [4; 14]])
                    2 (Some 2%Z) = Ok (Emb3 H) /\
      is_array3 2 2 2 H) /\
  (exists Hs,
      hankel_matrix
        (Arr3 [[[0; 10]; [1; 11]; [2; 12]; [3; 13]; [4; 14]];
               [[5; 15]; [6; 16]; [7; 17]; [8; 18]; [9; 19]];
               [[0; 0]; [0; 0]; [0; 0]; [0; 0]; [0; 0]]])
        2 (Some 2%Z) = Ok (Emb4 Hs) /\
      is_array4 3 2 2 2 Hs).
Proof.
  apply (hankel_matrix_shape _ _ 3 5 2 2 2).
  - split; [reflexivity|]. repeat constructor.
  - split; [reflexivity|]. repeat constructor.
  - lia.
  - lia.
  - lia.
  - lia.
  - lia.
Defined.

Lemma hankel_matrix_antidiagonals_witness :
  exists H,
    hankel_matrix (Arr2 [[0]; [1]; [2]; [3]; [4]]) 2 (Some 2%Z) = Ok (Emb3 H) /\
    forall i j i' j' d,
      (Z.of_nat i < 2)%Z -> (Z.of_nat j < 2)%Z ->
      (Z.of_nat i' < 2)%Z -> (Z.of_nat j' < 2)%Z -> d < 1 ->
      i + j = i' + j' ->
      exists x, item3 H i j d = Some x /\ item3 H i' j' d = Some x.
Proof.
  apply (hankel_matrix_antidiagonals [[0]; [1]; [2]; [3]; [4]] 5 1 2 2).
  - split; [reflexivity|]. repeat constructor.
  - lia.
  - lia.
  - lia.
  - lia.
Defined.

Lemma hankel_matrix_batch_slices_witness :
  exists Hs,
    hankel_matrix
      (Arr3 [[[0; 10]; [1; 11]; [2; 12]; [3; 13]];
             [[4; 14]; [5; 15]; [6; 16]; [7; 17]]]) 2 (Some 1%Z)
    = Ok (Emb4 Hs) /\
    length Hs = 2 /\
    forall i item,
      [[[0; 10]; [1; 11]; [2; 12]; [3; 13]];
       [[4; 14]; [5; 15]; [6; 16]; [7; 17]]] !! i = Some item ->
      exists H,
        hankel_matrix (Arr2 item) 2 (Some 1%Z) = Ok (Emb3 H) /\
        Hs !! i = Some H.
Proof.
  apply (hankel_matrix_batch_slices _ 2 4 2 2 1).
  - split; [reflexivity|].
    repeat constructor.
  - lia.
  - lia.
  - lia.
  - lia.
  - lia.
Defined.

(** ** train_test *)

Section Raises.
Context {X : Type}.

Lemma dstack_raises (ms : list (list (list X))) e :
  Np.dstack ms = Raise e -> e = ValueError.
Proof.
  unfold Np.dstack. destruct ms as [|m0 ms]; [congruence|].
  destruct (forallb _ _); congruence.
Qed.

Lemma stack_raises (hs : list (list (list (list X)))) e :
  Np.stack hs = Raise e -> e = ValueError.
Proof.
  unfold Np.stack. destruct hs as [|h0 hs]; [congruence|].
  destruct (forallb _ _); congruence.
Qed.

Lemma _hankel_matrix_raises (data : list X + list (list X)) q p e :
  _hankel_matrix data q p = Raise e -> e = ValueError.
Proof.
  unfold _hankel_matrix.
  destruct (Np.dstack _) as [out|e'] eqn:Hout; cbn [bind]; [congruence|].
  intros [= <-]. by eapply dstack_raises.
Qed.

Lemma traverse_raises {Y W} (f : Y -> result W) (l : list Y) e :
  traverse f l = Raise e -> exists y, y ∈ l /\ f y = Raise e.
Proof.
  induction l as [|y l IH]; cbn [traverse]; [congruence|].
  destruct (f y) as [w|e'] eqn:Hy; cbn [bind].
  - destruct (traverse f l) as [ws|e'']; cbn [bind]; [congruence|].
    intros [= <-]. destruct IH as (y' & Hin & Hy'); [done|].
    exists y'. split; [by apply elem_of_cons; right|done].
  - intros [= <-]. exists y. split; [apply elem_of_cons; by left|done].
Qed.

(** [hankel_matrix] has one way to fail: numpy rejecting a stack. *)
Lemma hankel_matrix_raises (data : ndarray X) q p e :
  hankel_matrix data q p = Raise e -> e = ValueError.
Proof.
  destruct data as [v|m|b]; unfold hankel_matrix.
  - destruct (_hankel_matrix _ _ _) as [h|e'] eqn:Hh; cbn [bind]; [congruence|].
    intros [= <-]. by eapply _hankel_matrix_raises.
  - destruct (_hankel_matrix _ _ _) as [h|e'] eqn:Hh; cbn [bind]; [congruence|].
    intros [= <-]. by eapply _hankel_matrix_raises.
  - destruct (traverse _ _) as [hs|e'] eqn:Hhs; cbn [bind].
    + destruct (Np.stack hs) as [out|e'] eqn:Hout; cbn [bind]; [congruence|].
      intros [= <-]. by eapply stack_raises.
    + intros [= <-]. apply traverse_raises in Hhs as (item & _ & Hitem).
      by eapply _hankel_matrix_raises.
Qed.

End Raises.

(** C7.  With [n_split] computed, [train_test] fails with the
    insufficient-data assertion exactly when
    [len(dataset) <= sample_size + n_split]; with more data the check
    passes and that error is not raised. *)
Theorem train_test_assertion (dataset : list F64.float)
    (sample_size time_window : Z) (std split : F64.float) (k : Z) :
  n_split split sample_size = Ok k ->
  train_test dataset sample_size time_window std split
  = Raise (AssertionError "Not enough data to make complete split")
  <-> (Z.of_nat (length dataset) <= sample_size + k)%Z.
Proof.
  intros Hk. unfold train_test, train_test_hankel. rewrite Hk. cbn [bind].
  destruct (Z.ltb_spec (sample_size + k) (Z.of_nat (length dataset)))
    as [Hlt|Hge]; cbn [negb].
  - split; [|lia]. intros Hraise. exfalso.
    destruct (hankel_matrix (Arr1 dataset) _ _) as [hm_train|e] eqn:Htrain;
      cbn [bind] in Hraise.
    + destruct (hankel_matrix (Arr1 (slice _ _ _)) _ _) as [hm_test|e] eqn:Htest;
        cbn [bind] in Hraise; [discriminate|].
      apply hankel_matrix_raises in Htest. congruence.
    + apply hankel_matrix_raises in Htrain. congruence.
  - split; [lia|done].
Qed.

Lemma train_test_assertion_witness :
  train_test (F64.of_Z <$> [0; 1; 2; 3]%Z) 2 1 F64.one
             (F64.div (F64.of_Z 1) (F64.of_Z 2))
  = Raise (AssertionError "Not enough data to make complete split")
  <-> (Z.of_nat (length (F64.of_Z <$> [0; 1; 2; 3]%Z)) <= 2 + 2)%Z.
Proof.
  apply (train_test_assertion _ 2 1 F64.one _ 2).
  vm_compute. reflexivity.
Defined.

Lemma is_integer_part_inject_Z (k : Z) : is_integer_part k (inject_Z k).
Proof.
  unfold is_integer_part, Qle, Qlt. cbn. split; intros _; lia.
Qed.

Lemma is_integer_part_fraction (s : bool) (m k : positive) :
  is_integer_part (cond_Zopp s (Zpos m / 2 ^ Zpos k))
                  (Qmake (cond_Zopp s (Zpos m)) (2 ^ k)).
Proof.
  assert (Zpos (2 ^ k) = 2 ^ Zpos k)%Z as Hpow by apply Pos2Z.inj_pow.
  assert (0 < 2 ^ Zpos k)%Z as Hd by lia.
  pose proof (Z.mul_div_le (Zpos m) _ Hd) as Hle.
  pose proof (Z.mul_succ_div_gt (Zpos m) _ Hd) as Hgt.
  assert (0 <= Zpos m / 2 ^ Zpos k)%Z as Hn by (apply Z.div_pos; lia).
  unfold is_integer_part, Qle, Qlt. cbn [Qnum Qden inject_Z Qplus Qminus Qopp].
  rewrite Hpow. destruct s; cbn [cond_Zopp]; split; intros H0; nia.
Qed.

(** C3, as amended.  When the product [(split/(1-split))*sample_size] is
    computed and is a finite number [x], [n_split] is [x] with its fraction
    discarded ([int], which rounds toward zero), not the nearest integer. *)
Theorem n_split_integer_part (split : F64.float) (sample_size : Z)
    (ratio size : F64.float) (x : Q) :
  F64.py_truediv split (F64.sub F64.one split) = Ok ratio ->
  F64.py_of_int sample_size = Ok size ->
  F64.value (F64.mul ratio size) = Some x ->
  exists k, n_split split sample_size = Ok k /\ is_integer_part k x.
Proof.
  intros Hratio Hsize Hx. unfold n_split. rewrite Hratio, Hsize. cbn [bind].
  destruct (F64.mul ratio size) as [s|s| |s m e]; try discriminate.
  - injection Hx as <-. exists 0%Z. split; [done|].
    apply (is_integer_part_inject_Z 0).
  - eexists. split; [reflexivity|].
    destruct e as [|e|e]; injection Hx as <-.
    + rewrite Z.shiftl_0_r, Z.pow_0_r, Z.mul_1_r.
      apply is_integer_part_inject_Z.
    + rewrite Z.shiftl_mul_pow2 by lia. apply is_integer_part_inject_Z.
    + change (Z.shiftl (Zpos m) (Zneg e)) with (Z.shiftr (Zpos m) (Zpos e)).
      rewrite Z.shiftr_div_pow2 by lia.
      apply is_integer_part_fraction.
Qed.

(** C3, as the spec words it, fails: with [split = 0.25] and
    [sample_size = 2] the product is 0.666..., which [int] takes to 0 and
    [round] to 1. *)
Lemma n_split_is_not_round :
  let split := F64.div (F64.of_Z 1) (F64.of_Z 4) in
  n_split split 2 = Ok 0%Z /\
  n_split_round split 2 = Ok 1%Z /\
  n_split split 2 <> n_split_round split 2.
Proof. vm_compute. repeat split; congruence. Qed.

Lemma n_split_integer_part_witness :
  exists k,
    n_split (F64.div (F64.of_Z 1) (F64.of_Z 4)) 2 = Ok k /\
    is_integer_part k (6004799503160661 # 2 ^ 53).
Proof.
  apply (n_split_integer_part _ 2
           (S754_finite false 6004799503160661 (-54))
           (S754_finite false 4503599627370496 (-51))).
  - vm_compute. reflexivity.
  - vm_compute. reflexivity.
  - vm_compute. reflexivity.
Defined.

(** C2 at [dataset = [0, 1, 2, 3, 4, 5]], [sample_size = 1],
    [time_window = 2], [split = 0.75], where [n_split = 3]: the test matrix
    is built with [p = sample_size = 1] and is the one window [[2, 3]] of
    the truncated series [[0, 1, 2, 3, 4]] (returned rescaled, as
    [[-3, -1]]); with the default [p = n_split] it would be the three
    windows [[0, 1]], [[1, 2]], [[2, 3]]. *)
Lemma train_test_test_matrix_rows :
  let dataset := F64.of_Z <$> [0; 1; 2; 3; 4; 5]%Z in
  let split := F64.div (F64.of_Z 3) (F64.of_Z 4) in
  n_split split 1 = Ok 3%Z /\
  (exists hm_train,
     train_test_hankel dataset 1 2 split
     = Ok (hm_train, Emb3 [[[F64.of_Z 2]; [F64.of_Z 3]]])) /\
  (exists X_train,
     train_test dataset 1 2 F64.one split
     = Ok (X_train, Emb3 [[[F64.of_Z (-3)]; [F64.of_Z (-1)]]])) /\
  hankel_matrix (Arr1 (slice dataset None (Some (3 + 2)%Z))) 2 None
  = Ok (Emb3 [[[F64.of_Z 0]; [F64.of_Z 1]];
              [[F64.of_Z 1]; [F64.of_Z 2]];
              [[F64.of_Z 2]; [F64.of_Z 3]]]).
Proof.
  intros dataset split. repeat split.
  - eexists. vm_compute. reflexivity.
  - eexists. vm_compute. reflexivity.
Qed.

(** [l[:hi]] for a bound within the list. *)
Lemma slice_prefix {X} (l : list X) (hi : Z) :
  (0 <= hi <= Z.of_nat (length l))%Z ->
  slice l None (Some hi) = take (Z.to_nat hi) l.
Proof.
  intros Hhi. unfold slice, adjust_index. cbn [from_option].
  destruct (Z.ltb_spec hi 0); [lia|].
  change (Z.to_nat 0) with 0. rewrite drop_0. f_equal. lia.
Qed.

(** What lines 80 and 81 build when [sample_size <= n_split] and the
    series has [n_split + time_window] samples or more: both matrices have
    [sample_size] rows, and the test matrix holds the last [sample_size]
    of the [n_split] windows of the truncated series. *)
Lemma train_test_hankel_windows (dataset : list F64.float)
    (sample_size time_window : Z) (split : F64.float) (k : Z) :
  n_split split sample_size = Ok k ->
  (1 <= sample_size)%Z -> (1 <= time_window)%Z -> (sample_size <= k)%Z ->
  (sample_size + k < Z.of_nat (length dataset))%Z ->
  (k + time_window <= Z.of_nat (length dataset))%Z ->
  train_test_hankel dataset sample_size time_window split
  = Ok (Emb3 (windows (Np.expand_dims dataset)
                (length dataset - Z.to_nat sample_size - Z.to_nat time_window)
                (Z.to_nat time_window) (Z.to_nat sample_size)),
        Emb3 (windows (Np.expand_dims (take (Z.to_nat (k + time_window)) dataset))
                (Z.to_nat k - Z.to_nat sample_size)
                (Z.to_nat time_window) (Z.to_nat sample_size))).
Proof.
  intros Hk HS HW HSk Hn HkW. unfold train_test_hankel. rewrite Hk. cbn [bind].
  destruct (Z.ltb_spec (sample_size + k) (Z.of_nat (length dataset))); [|lia].
  cbn [negb]. rewrite hankel_matrix_windows_1d by lia. cbn [bind].
  rewrite slice_prefix by lia.
  rewrite hankel_matrix_windows_1d by (rewrite ?length_take; lia).
  cbn [bind]. rewrite length_take. do 4 f_equal. lia.
Qed.

(** Where the two agree: asking for [p] rows is asking for the default
    number of rows when [p = len(data) - q] (as for the test matrix when
    [n_split = sample_size] and the truncated series has
    [n_split + time_window] samples). *)
Lemma _hankel_matrix_default_rows {X} (data : list (list X)) (q p : Z) :
  (Z.of_nat (length data) - q = p)%Z ->
  _hankel_matrix (inr data) q (Some p) = _hankel_matrix (inr data) q None.
Proof. intros Hp. unfold _hankel_matrix. rewrite Hp. by destruct p. Qed.

Lemma hankel_matrix_default_rows {X} (v : list X) (q p : Z) :
  (Z.of_nat (length v) - q = p)%Z ->
  hankel_matrix (Arr1 v) q (Some p) = hankel_matrix (Arr1 v) q None.
Proof.
  intros Hp. unfold hankel_matrix.
  rewrite _hankel_matrix_default_rows; [done|].
  unfold Np.expand_dims. by rewrite length_map.
Qed.

(** ** standardize_ts *)

Section Standardize.
Context {F : Type} `{Np.Dtype F}.

(** Item by item: channel [d] is shifted by its mean and divided by
    [scale] times its standard deviation, or by [scale * 1]. *)
Lemma standardize_ts_items (a : list (list F)) (T D : nat) (scale : F) :
  is_array2 T D a ->
  standardize_ts a scale = imap (standardize_item a scale) <$> a.
Proof.
  intros Ha. destruct (decide (T = 0)) as [->|HT].
  { destruct Ha as [Hlen _]. by apply length_zero_iff_nil in Hlen as ->. }
  unfold standardize_ts, Np.mean_axis0, Np.std_axis0, Np.broadcast_rows.
  rewrite (swapaxes01_array T D) by (done || lia).
  rewrite map_map. apply list_fmap_ext. intros t row Hrow.
  assert (length row = D) as Hlen.
  { destruct Ha as [_ Hrows]. by eapply Forall_lookup_1 in Hrows. }
  apply (list_eq_same_length _ _ D).
  - by rewrite length_imap.
  - rewrite !length_zip_with, !length_map, length_tabulate. lia.
  - intros d y z Hd. rewrite list_lookup_imap.
    rewrite !lookup_zip_with, !list_lookup_fmap, !lookup_tabulate by done.
    destruct (row !! d) as [x|]; [|done]. cbn. intros [= <-] [= <-]. done.
Qed.

Lemma standardize_ts_shape (a : list (list F)) (T D : nat) (scale : F) :
  is_array2 T D a -> is_array2 T D (standardize_ts a scale).
Proof.
  intros Ha. rewrite (standardize_ts_items a T D) by done.
  destruct Ha as [HT Hrows]. split; [by rewrite length_fmap|].
  apply Forall_fmap. eapply Forall_impl; [exact Hrows|].
  simpl. intros row Hrow. by rewrite length_imap.
Qed.

Lemma standardize_ts_item2 (a : list (list F)) (T D : nat) (scale : F) t d :
  is_array2 T D a ->
  item2 (standardize_ts a scale) t d
  = standardize_item a scale d <$> item2 a t d.
Proof.
  intros Ha. rewrite (standardize_ts_items a T D) by done.
  unfold item2. rewrite list_lookup_fmap.
  destruct (a !! t) as [row|]; [|done]. cbn.
  by rewrite list_lookup_imap.
Qed.

End Standardize.



(** ** Binary64 facts *)

Lemma iter_pos_nat {A} (f : A -> A) (p : positive) (x : A) :
  SpecFloat.iter_pos f p x = Nat.iter (Pos.to_nat p) f x.
Proof.
  revert x. induction p as [p IH|p IH|]; intros x; cbn [SpecFloat.iter_pos].
  - rewrite !IH, Pos2Nat.inj_xI.
    replace (S (2 * Pos.to_nat p)) with (Pos.to_nat p + S (Pos.to_nat p)) by lia.
    by rewrite Nat.iter_add, Nat.iter_succ_r.
  - rewrite !IH, Pos2Nat.inj_xO.
    replace (2 * Pos.to_nat p) with (Pos.to_nat p + Pos.to_nat p) by lia.
    by rewrite Nat.iter_add.
  - done.
Qed.





Lemma digits2_pos_shiftl_nat (m : positive) (k : nat) :
  (Zpos (digits2_pos (Pos.shiftl_nat m k)) = Zpos (digits2_pos m) + Z.of_nat k)%Z.
Proof.
  induction k as [|k IH]; [cbn; lia|].
  change (Pos.shiftl_nat m (S k)) with (xO (Pos.shiftl_nat m k)).
  cbn [digits2_pos]. rewrite Pos2Z.inj_succ. lia.
Qed.








(** Three samples of 0.1, with the default [scale = 1]: the computed mean
    is 0.10000000000000002, the computed standard deviation is about
    1.4e-17, not zero, and the constant channel comes out as -1. *)
Example standardize_ts_tenths :
  let tenth := F64.div (F64.of_Z 1) (F64.of_Z 10) in
  standardize_ts [[tenth]; [tenth]; [tenth]] F64.one
  = [[F64.of_Z (-1)]; [F64.of_Z (-1)]; [F64.of_Z (-1)]].
Proof. vm_compute. reflexivity. Qed.


(** ** standardize_ts in exact arithmetic *)

Section ExactArithmetic.
Local Open Scope R_scope.
Implicit Types l : list R.

Lemma fold_left_Rplus_acc l (acc : R) :
  fold_left Rplus l acc = acc + fold_left Rplus l 0.
Proof.
  revert acc. induction l as [|y l IH]; intros acc; cbn [fold_left].
  - ring.
  - rewrite (IH (acc + y)), (IH (0 + y)). ring.
Qed.

Lemma Rsum_cons (x : R) l : Np.sum (x :: l) = x + Np.sum l.
Proof.
  unfold Np.sum. cbn [fold_left Np.add Np.zero Exact.dtype].
  rewrite fold_left_Rplus_acc. ring.
Qed.

Lemma Rmean_eq l : Np.mean l = Np.sum l / INR (length l).
Proof. reflexivity. Qed.

Lemma Rstd_eq l : Np.std l = sqrt (sum_sq (Np.mean l) l / INR (length l)).
Proof. reflexivity. Qed.

Lemma Rstandardize_value_eq l (s x : R) :
  standardize_value l s x
  = (x - Np.mean l) / (s * (if Req_dec_T (Np.std l) 0 then 1 else Np.std l)).
Proof.
  unfold standardize_value.
  cbn [Np.equal_zero Np.true_divide Np.subtract Np.multiply Np.one Exact.dtype].
  by destruct (Req_dec_T (Np.std l) 0).
Qed.

Lemma Rsum_shift_scale l (mu k : R) :
  Np.sum ((fun x => (x - mu) / k) <$> l)
  = (Np.sum l - INR (length l) * mu) / k.
Proof.
  induction l as [|x l IH].
  - cbn. unfold Rdiv. ring.
  - rewrite fmap_cons, !Rsum_cons, IH. cbn [length]. rewrite S_INR.
    unfold Rdiv. ring.
Qed.

Lemma sum_sq_shift_scale l (mu k : R) :
  sum_sq 0 ((fun x => (x - mu) / k) <$> l) = sum_sq mu l * (/ k * / k).
Proof.
  unfold sum_sq. induction l as [|x l IH].
  - cbn. ring.
  - rewrite !fmap_cons, !Rsum_cons, IH. unfold Rdiv. ring.
Qed.

Lemma sum_sq_nonneg (mu : R) l : 0 <= sum_sq mu l.
Proof.
  unfold sum_sq. induction l as [|x l IH].
  - cbn. lra.
  - rewrite !fmap_cons, Rsum_cons.
    pose proof (Rle_0_sqr (x - mu)) as Hsq. unfold Rsqr in Hsq. lra.
Qed.



End ExactArithmetic.

Section ExactConstant.
Local Open Scope R_scope.

Lemma Rsum_constant (l : list R) (c : R) :
  Forall (fun v => v = c) l -> Np.sum l = INR (length l) * c.
Proof.
  induction 1 as [|v l -> _ IH].
  - cbn. ring.
  - rewrite Rsum_cons, IH. cbn [length]. rewrite S_INR. ring.
Qed.

(** In exact arithmetic, and for a scale other than zero (so that no
    division by zero is met), a constant channel is taken to zero. *)
Lemma standardize_value_constant_exact (l : list R) (c s : R) :
  l <> [] -> Forall (fun v => v = c) l -> s <> 0 ->
  standardize_value l s c = 0.
Proof.
  intros Hne Hconst _.
  assert (0 < INR (length l)) as Hn.
  { apply lt_0_INR. destruct l; [done|simpl; lia]. }
  rewrite Rstandardize_value_eq.
  assert (Np.mean l = c) as ->.
  { rewrite Rmean_eq, (Rsum_constant l c) by done. field. lra. }
  unfold Rdiv. ring.
Qed.

End ExactConstant.

Section StandardizeTwice.
Context {F : Type} `{Np.Dtype F}.

Lemma column_standardize_ts (a : list (list F)) (T D : nat) (scale : F) d :
  is_array2 T D a -> d < D ->
  Np.column d (standardize_ts a scale)
  = standardize_value (Np.column d a) scale <$> Np.column d a.
Proof.
  intros Ha Hd.
  pose proof (standardize_ts_shape a T D scale Ha) as Hout.
  apply (list_eq_same_length _ _ T).
  - by rewrite length_fmap, (column_length T D).
  - by rewrite (column_length T D).
  - intros t y z Ht.
    rewrite (column_lookup T D) by done.
    rewrite (standardize_ts_item2 a T D) by done.
    rewrite list_lookup_fmap, (column_lookup T D) by done.
    destruct (item2 a t d) as [x|]; cbn; [|done].
    by intros [= <-] [= <-].
Qed.

End StandardizeTwice.




(** ** arff_to_data *)

Lemma arff_not_bound :
  ("arff" ∉ module_globals)%string /\ ("arff" ∉ builtins)%string.
Proof.
  split.
  - assert (bool_decide ("arff" ∈ module_globals)%string = false) as Hg
      by (vm_compute; reflexivity).
    by apply bool_decide_eq_false in Hg.
  - assert (bool_decide ("arff" ∈ builtins)%string = false) as Hb
      by (vm_compute; reflexivity).
    by apply bool_decide_eq_false in Hb.
Qed.

(** C10.  Every call of [arff_to_data] raises [NameError]: the name [arff]
    that its first statement reads is bound neither by the module nor by
    the builtins, whatever the loader would go on to do. *)
Theorem arff_to_data_name_error {Dataset : Type}
    (load_and_reshape : string -> Z -> result Dataset)
    (path : string) (fmt_spec : Z) :
  arff_to_data load_and_reshape path fmt_spec = Raise (NameError "arff").
Proof.
  unfold arff_to_data, load_global.
  destruct arff_not_bound as [Hg Hb].
  rewrite (bool_decide_eq_false_2 _ Hg), (bool_decide_eq_false_2 _ Hb).
  reflexivity.
Qed.

(** * Further properties *)

(** ** hankel_matrix: omitted [p], short series, what is read *)

Section HankelMore.
Context {X : Type}.

Lemma drop_tabulate {Y} n m (f : nat -> Y) :
  drop m (tabulate n f) = tabulate (n - m) (fun i => f (m + i)).
Proof.
  apply (list_eq_same_length _ _ (n - m)).
  - apply length_tabulate.
  - rewrite length_drop. by rewrite length_tabulate.
  - intros i x y Hi. rewrite lookup_drop, !lookup_tabulate by lia. congruence.
Qed.

(** With [p] omitted, or given as 0, the embedding has [T - q] rows: every
    window of [q] samples but the last one. *)
Theorem hankel_matrix_default_p (data : list (list X)) (T D : nat) (q : Z)
    (p : option Z) :
  is_array2 T D data -> 0 < D -> (1 <= q)%Z -> (q < Z.of_nat T)%Z ->
  p = None \/ p = Some 0%Z ->
  exists H,
    hankel_matrix (Arr2 data) q p = Ok (Emb3 H) /\
    is_array3 (T - Z.to_nat q) (Z.to_nat q) D H /\
    forall i j d,
      i < T - Z.to_nat q -> (Z.of_nat j < q)%Z -> d < D ->
      exists x, item3 H i j d = Some x /\ item2 data (i + j) d = Some x.
Proof.
  intros Hdata HD Hq HqT Hp.
  assert (hankel_matrix (Arr2 data) q p
          = hankel_matrix (Arr2 data) q (Some (Z.of_nat T - q)%Z)) as ->.
  { unfold hankel_matrix, _hankel_matrix. destruct Hdata as [-> _].
    destruct Hp as [->| ->]; by destruct (Z.of_nat T - q)%Z. }
  rewrite (hankel_matrix_windows data T D) by (done || lia).
  replace (T - Z.to_nat (Z.of_nat T - q) - Z.to_nat q) with 0 by lia.
  replace (Z.to_nat (Z.of_nat T - q)) with (T - Z.to_nat q) by lia.
  eexists. split; [reflexivity|]. split.
  - apply (is_array3_windows data T D); [done|lia].
  - intros i j d Hi Hj Hd. rewrite item3_windows by lia.
    destruct (item2_is_Some data T D (0 + i + j) d) as [x Hx]; [done|lia|done|].
    by exists x.
Qed.

(** Stacking the channel matrices and exchanging the axes, whenever the
    matrix of a channel holds, in row [a], the [p' + 1] values from
    position [k + a] on. *)
Lemma embed_channels (data : list (list X)) (T D k q' p' : nat)
    (channel_matrix : list X -> list (list X)) :
  is_array2 T D data -> 0 < D -> 0 < q' -> k + q' + p' <= T ->
  (forall col, length col = T ->
     channel_matrix col
     = tabulate q' (fun a => take (p' + 1) (drop (k + a) col))) ->
  (out <- Np.dstack (map channel_matrix (Np.swapaxes01 data)) ;;
   Ok (slice (Np.swapaxes01 out) None (Some (-1)%Z)))
  = Ok (windows data k q' p').
Proof.
  intros Hdata HD Hq' Hfit Hchannel.
  assert (0 < T) as HT by lia.
  rewrite (swapaxes01_array T D) by done.
  unfold tabulate at 1. rewrite <- list_fmap_compose.
  change (_ <$> seq 0 D) with
    (tabulate D (fun d => channel_matrix (Np.column d data))).
  rewrite (tabulate_ext D _ (fun d =>
    tabulate q' (fun a => take (p' + 1) (drop (k + a) (Np.column d data))))).
  2:{ intros d Hd. apply Hchannel. by apply (column_length T D). }
  set (ms := tabulate D _).
  assert (Forall (is_array2 q' (p' + 1)) ms) as Hms.
  { apply Forall_lookup_2. intros d m Hm.
    assert (d < D) as Hd.
    { apply lookup_lt_Some in Hm. unfold ms in Hm.
      by rewrite length_tabulate in Hm. }
    unfold ms in Hm. rewrite lookup_tabulate in Hm by done.
    injection Hm as <-. apply is_array2_tabulate. intros a Ha.
    rewrite length_take, length_drop, (column_length T D) by done. lia. }
  rewrite (dstack_arrays q' (p' + 1)); [|..|done]; cycle 1.
  { intros Hnil. apply (f_equal length) in Hnil. unfold ms in Hnil.
    rewrite length_tabulate in Hnil. simpl in Hnil. lia. }
  { lia. }
  cbn [bind].
  rewrite (tabulate_ext q' _ (fun a => take (p' + 1) (drop (k + a) data))).
  2:{ intros a Ha. apply tabulate_window.
      { destruct Hdata as [-> _]. lia. }
      intros b Hb.
      destruct (lookup_lt_is_Some_2 data (k + a + b)) as [r Hr].
      { destruct Hdata as [-> _]. lia. }
      rewrite Hr. f_equal. unfold ms. rewrite omap_tabulate.
      rewrite (omap_ext_seq _ (fun d => r !! (0 + d))).
      - assert (length r = D) as Hlen.
        { destruct Hdata as [_ Hrows]. by eapply Forall_lookup_1 in Hrows. }
        rewrite omap_lookup_window by (simpl; lia).
        rewrite drop_0. symmetry. apply take_ge. lia.
      - intros d Hd. rewrite lookup_tabulate by done. csimpl.
        rewrite lookup_take_lt, lookup_drop by lia.
        rewrite (column_lookup T D) by done.
        unfold item2. by rewrite Hr. }
  f_equal.
  rewrite (swapaxes01_array q' (p' + 1)); [| |lia].
  2:{ apply is_array2_tabulate. intros a Ha.
      rewrite length_take, length_drop. destruct Hdata as [-> _]. lia. }
  rewrite slice_drop_last, length_tabulate.
  rewrite take_tabulate by lia.
  replace (p' + 1 - 1) with p' by lia.
  unfold windows. apply tabulate_ext. intros b Hb.
  unfold Np.column. rewrite omap_tabulate.
  rewrite (omap_ext_seq _ (fun a => data !! (k + b + a))).
  - apply omap_lookup_window. destruct Hdata as [-> _]. lia.
  - intros a Ha. rewrite lookup_take_lt, lookup_drop by lia.
    f_equal. lia.
Qed.

(** [hankel(first, last)] for a channel shorter than [p + q]: [first] is
    clamped to the [T - p] leading values. *)
Lemma hankel_channel_short (col : list X) (T : nat) (p q : Z) :
  length col = T -> (1 <= p)%Z -> (p < Z.of_nat T)%Z -> (Z.of_nat T <= p + q)%Z ->
  Scipy.hankel (slice col (Some (- (p + q))%Z) (Some (- p)%Z))
               (slice col (Some (- p - 1)%Z) None)
  = tabulate (T - Z.to_nat p) (fun a => take (Z.to_nat p + 1) (drop (0 + a) col)).
Proof.
  intros HT Hp HpT HTpq.
  assert (slice col (Some (- (p + q))%Z) (Some (- p)%Z)
          = take (T - Z.to_nat p) col) as ->.
  { unfold slice, adjust_index. cbn [from_option].
    destruct (Z.ltb_spec (- (p + q)) 0); [|lia].
    destruct (Z.ltb_spec (- p) 0); [|lia].
    match goal with
    | |- take _ (drop ?k _) = _ => replace k with 0 by lia
    end.
    rewrite drop_0. f_equal. lia. }
  replace (- p - 1)%Z
    with (Z.of_nat (T - Z.to_nat p - 1) - Z.of_nat (length col))%Z by lia.
  rewrite slice_suffix by lia.
  unfold Scipy.hankel, tabulate.
  rewrite drop_drop.
  replace (T - Z.to_nat p - 1 + 1) with (T - Z.to_nat p) by lia.
  rewrite take_drop, length_take, length_drop.
  replace ((T - Z.to_nat p) `min` length col) with (T - Z.to_nat p) by lia.
  replace (length col - (T - Z.to_nat p - 1)) with (Z.to_nat p + 1) by lia.
  done.
Qed.

Lemma _hankel_matrix_short_windows (data : list (list X)) (T D : nat) (q p : Z) :
  is_array2 T D data -> 0 < D ->
  (1 <= p)%Z -> (p < Z.of_nat T)%Z -> (Z.of_nat T < p + q)%Z ->
  _hankel_matrix (inr data) q (Some p)
  = Ok (windows data 0 (T - Z.to_nat p) (Z.to_nat p)).
Proof.
  intros Hdata HD Hp HpT HTpq. unfold _hankel_matrix.
  assert (match p with 0%Z => (Z.of_nat (length data) - q)%Z | _ => p end = p)
    as -> by (destruct p; lia || done).
  rewrite (embed_channels data T D 0 (T - Z.to_nat p) (Z.to_nat p));
    [done|done|done|lia|lia|].
  intros col Hcol. apply hankel_channel_short; lia || done.
Qed.

(** A series with more than [p] but fewer than [p + q] samples raises
    nothing: the embedding has its [p] rows, but only [T - p] columns
    instead of [q], starting at the first sample. *)
Theorem hankel_matrix_short_series (data : list (list X)) (T D : nat) (q p : Z) :
  is_array2 T D data -> 0 < D ->
  (1 <= p)%Z -> (p < Z.of_nat T)%Z -> (Z.of_nat T < p + q)%Z ->
  exists H,
    hankel_matrix (Arr2 data) q (Some p) = Ok (Emb3 H) /\
    is_array3 (Z.to_nat p) (T - Z.to_nat p) D H /\
    forall i j d,
      (Z.of_nat i < p)%Z -> j < T - Z.to_nat p -> d < D ->
      exists x, item3 H i j d = Some x /\ item2 data (i + j) d = Some x.
Proof.
  intros Hdata HD Hp HpT HTpq.
  unfold hankel_matrix.
  rewrite (_hankel_matrix_short_windows data T D) by done. cbn [bind].
  eexists. split; [reflexivity|]. split.
  - apply (is_array3_windows data T D); [done|lia].
  - intros i j d Hi Hj Hd. rewrite item3_windows by lia.
    destruct (item2_is_Some data T D (0 + i + j) d) as [x Hx]; [done|lia|done|].
    by exists x.
Qed.

Lemma windows_ext {Y} (data data' : list Y) (s q p : nat) :
  (forall t, s <= t < s + p + q - 1 -> data !! t = data' !! t) ->
  windows data s q p = windows data' s q p.
Proof.
  intros Hsame. unfold windows. apply tabulate_ext. intros i Hi.
  apply list_eq. intros j. destruct (decide (j < q)) as [Hj|Hj].
  - rewrite !lookup_take_lt, !lookup_drop by done. apply Hsame. lia.
  - by rewrite !lookup_take_ge by lia.
Qed.

(** The embedding reads the samples [T - p - q], ..., [T - 2] and nothing
    else: two series that agree on them have the same embedding, whatever
    their earlier samples and their last sample are. *)
Theorem hankel_matrix_reads (data data' : list (list X)) (T D : nat) (q p : Z) :
  is_array2 T D data -> is_array2 T D data' -> 0 < D ->
  (1 <= q)%Z -> (1 <= p)%Z -> (p + q <= Z.of_nat T)%Z ->
  (forall t, (Z.of_nat T - p - q <= Z.of_nat t < Z.of_nat T - 1)%Z ->
             data !! t = data' !! t) ->
  hankel_matrix (Arr2 data) q (Some p) = hankel_matrix (Arr2 data') q (Some p).
Proof.
  intros Hdata Hdata' HD Hq Hp HpqT Hsame.
  rewrite (hankel_matrix_windows data T D), (hankel_matrix_windows data' T D)
    by done.
  do 2 f_equal. apply windows_ext. intros t Ht. apply Hsame. lia.
Qed.

(** Asking for [p] rows gives the last [p] rows of the embedding with all
    its rows. *)
Theorem hankel_matrix_last_rows (data : list (list X)) (T D : nat) (q p : Z) :
  is_array2 T D data -> 0 < D ->
  (1 <= q)%Z -> (1 <= p)%Z -> (p + q <= Z.of_nat T)%Z ->
  exists H Hall,
    hankel_matrix (Arr2 data) q (Some p) = Ok (Emb3 H) /\
    hankel_matrix (Arr2 data) q None = Ok (Emb3 Hall) /\
    length Hall = T - Z.to_nat q /\
    H = drop (length Hall - Z.to_nat p) Hall.
Proof.
  intros Hdata HD Hq Hp HpqT.
  assert (hankel_matrix (Arr2 data) q None
          = hankel_matrix (Arr2 data) q (Some (Z.of_nat T - q)%Z)) as Hnone.
  { unfold hankel_matrix, _hankel_matrix. destruct Hdata as [-> _].
    by destruct (Z.of_nat T - q)%Z. }
  rewrite Hnone, !(hankel_matrix_windows data T D) by (done || lia).
  do 2 eexists. split; [reflexivity|]. split; [reflexivity|].
  rewrite length_windows. split; [lia|].
  unfold windows. rewrite drop_tabulate.
  replace (Z.to_nat (Z.of_nat T - q) - (Z.to_nat (Z.of_nat T - q) - Z.to_nat p))
    with (Z.to_nat p) by lia.
  apply tabulate_ext. intros i Hi. do 2 f_equal. lia.
Qed.

(** The embedding of the first [n] samples, with all its rows, is the
    first [n - q] rows of the embedding of the whole series. *)
Theorem hankel_matrix_prefix (data : list (list X)) (T D n : nat) (q : Z) :
  is_array2 T D data -> 0 < D ->
  (1 <= q)%Z -> (q < Z.of_nat n)%Z -> n <= T ->
  exists Hn Hall,
    hankel_matrix (Arr2 (take n data)) q None = Ok (Emb3 Hn) /\
    hankel_matrix (Arr2 data) q None = Ok (Emb3 Hall) /\
    Hn = take (n - Z.to_nat q) Hall.
Proof.
  intros Hdata HD Hq Hqn HnT.
  assert (is_array2 n D (take n data)) as Htake.
  { destruct Hdata as [HT Hrows]. split.
    - rewrite length_take. lia.
    - by apply Forall_take. }
  assert (forall (m : nat) (a : list (list X)),
             is_array2 m D a -> (q < Z.of_nat m)%Z ->
             hankel_matrix (Arr2 a) q None
             = Ok (Emb3 (windows a 0 (Z.to_nat q) (m - Z.to_nat q)))) as Hnone.
  { intros m a Ha Hqm.
    assert (hankel_matrix (Arr2 a) q None
            = hankel_matrix (Arr2 a) q (Some (Z.of_nat m - q)%Z)) as ->.
    { unfold hankel_matrix, _hankel_matrix. destruct Ha as [-> _].
      by destruct (Z.of_nat m - q)%Z. }
    rewrite (hankel_matrix_windows a m D) by (done || lia).
    do 3 f_equal; lia. }
  rewrite (Hnone n), (Hnone T) by (done || lia).
  do 2 eexists. split; [reflexivity|]. split; [reflexivity|].
  unfold windows. rewrite take_tabulate by lia.
  apply tabulate_ext. intros i Hi.
  apply list_eq. intros j. destruct (decide (j < Z.to_nat q)) as [Hj|Hj].
  - rewrite !lookup_take_lt, !lookup_drop by done.
    apply lookup_take_lt. lia.
  - by rewrite !lookup_take_ge by lia.
Qed.

(** A series with samples but without a channel is rejected: numpy has
    nothing to stack. *)
Theorem hankel_matrix_no_channel (data : list (list X)) (T : nat) (q : Z)
    (p : option Z) :
  0 < T -> is_array2 T 0 data ->
  hankel_matrix (Arr2 data) q p = Raise ValueError.
Proof.
  intros HT [Hlen Hrows]. unfold hankel_matrix, _hankel_matrix.
  destruct data as [|r0 data]; [simpl in Hlen; lia|].
  apply Forall_inv in Hrows. apply length_zero_iff_nil in Hrows as ->.
  reflexivity.
Qed.

End HankelMore.

Lemma hankel_matrix_default_p_witness :
  exists H,
    hankel_matrix (Arr2 [[0]; [1]; [2]; [3]; [4]]) 2 None = Ok (Emb3 H) /\
    is_array3 3 2 1 H /\
    forall i j d,
      i < 3 -> (Z.of_nat j < 2)%Z -> d < 1 ->
      exists x, item3 H i j d = Some x /\
                item2 [[0]; [1]; [2]; [3]; [4]] (i + j) d = Some x.
Proof.
  apply (hankel_matrix_default_p [[0]; [1]; [2]; [3]; [4]] 5 1 2 None).
  - split; [reflexivity|]. repeat constructor.
  - lia.
  - lia.
  - lia.
  - by left.
Defined.

Lemma hankel_matrix_short_series_witness :
  exists H,
    hankel_matrix (Arr2 [[0]; [1]; [2]; [3]; [4]]) 4 (Some 3%Z) = Ok (Emb3 H) /\
    is_array3 3 2 1 H /\
    forall i j d,
      (Z.of_nat i < 3)%Z -> j < 2 -> d < 1 ->
      exists x, item3 H i j d = Some x /\
                item2 [[0]; [1]; [2]; [3]; [4]] (i + j) d = Some x.
Proof.
  apply (hankel_matrix_short_series [[0]; [1]; [2]; [3]; [4]] 5 1 4 3).
  - split; [reflexivity|]. repeat constructor.
  - lia.
  - lia.
  - lia.
  - lia.
Defined.

Lemma hankel_matrix_reads_witness :
  hankel_matrix (Arr2 [[9]; [1]; [2]; [3]; [7]]) 2 (Some 2%Z)
  = hankel_matrix (Arr2 [[0]; [1]; [2]; [3]; [4]]) 2 (Some 2%Z).
Proof.
  apply (hankel_matrix_reads _ _ 5 1).
  - split; [reflexivity|]. repeat constructor.
  - split; [reflexivity|]. repeat constructor.
  - lia.
  - lia.
  - lia.
  - lia.
  - intros [|[|[|[|[|t]]]]] Ht; (reflexivity || lia).
Defined.

Lemma hankel_matrix_last_rows_witness :
  exists H Hall,
    hankel_matrix (Arr2 [[0]; [1]; [2]; [3]; [4]]) 2 (Some 1%Z) = Ok (Emb3 H) /\
    hankel_matrix (Arr2 [[0]; [1]; [2]; [3]; [4]]) 2 None = Ok (Emb3 Hall) /\
    length Hall = 3 /\
    H = drop (length Hall - 1) Hall.
Proof.
  apply (hankel_matrix_last_rows [[0]; [1]; [2]; [3]; [4]] 5 1 2 1).
  - split; [reflexivity|]. repeat constructor.
  - lia.
  - lia.
  - lia.
  - lia.
Defined.

Lemma hankel_matrix_prefix_witness :
  exists Hn Hall,
    hankel_matrix (Arr2 (take 4 [[0]; [1]; [2]; [3]; [4]])) 2 None = Ok (Emb3 Hn) /\
    hankel_matrix (Arr2 [[0]; [1]; [2]; [3]; [4]]) 2 None = Ok (Emb3 Hall) /\
    Hn = take 2 Hall.
Proof.
  apply (hankel_matrix_prefix [[0]; [1]; [2]; [3]; [4]] 5 1 4 2).
  - split; [reflexivity|]. repeat constructor.
  - lia.
  - lia.
  - lia.
  - lia.
Defined.

Lemma hankel_matrix_no_channel_witness :
  hankel_matrix (Arr2 [[]; []; [] : list nat]) 1 (Some 1%Z) = Raise ValueError.
Proof.
  apply (hankel_matrix_no_channel _ 3).
  - lia.
  - split; [reflexivity|]. repeat constructor.
Defined.

(** ** train_test: the default split, a split of one, long windows *)

Lemma digits2_pos_lower (n : positive) :
  (2 ^ (Zpos (digits2_pos n) - 1) <= Zpos n)%Z.
Proof.
  induction n as [n IH|n IH|]; cbn [digits2_pos]; [| |done].
  all: rewrite Pos2Z.inj_succ.
  all: replace (Z.succ (Zpos (digits2_pos n)) - 1)%Z
         with (Z.succ (Zpos (digits2_pos n) - 1))%Z by lia.
  all: rewrite Z.pow_succ_r by lia; lia.
Qed.

Lemma Zpos_shiftl_nat (n : positive) (k : nat) :
  Zpos (Pos.shiftl_nat n k) = (Zpos n * 2 ^ Z.of_nat k)%Z.
Proof.
  induction k as [|k IH]; [cbn; lia|].
  change (Pos.shiftl_nat n (S k)) with (xO (Pos.shiftl_nat n k)).
  rewrite Pos2Z.inj_xO, IH, Nat2Z.inj_succ, Z.pow_succ_r by lia. lia.
Qed.

Lemma iter_xO_shiftl_nat (n k : positive) :
  Pos.iter xO n k = Pos.shiftl_nat n (Pos.to_nat k).
Proof. unfold Pos.shiftl_nat. apply Pos2Nat.inj_iter. Qed.

(** Rounding a binary64 number gives that number. *)
Lemma binary_round_aux_exact (s : bool) (m : positive) (e : Z) :
  valid_binary F64.prec F64.emax (S754_finite s m e) = true ->
  binary_round_aux F64.prec F64.emax s (Zpos m) e loc_Exact = S754_finite s m e.
Proof.
  intros Hvalid. cbn [valid_binary] in Hvalid.
  unfold bounded, canonical_mantissa in Hvalid.
  apply andb_prop in Hvalid as [Hcanon Hbound]. apply Z.eqb_eq in Hcanon.
  assert (shr_fexp F64.prec F64.emax (Zpos m) e loc_Exact
          = (Build_shr_record (Zpos m) false false, e)) as Hshr.
  { unfold shr_fexp. cbn [Zdigits2 shr_record_of_loc].
    rewrite Hcanon, Z.sub_diag. reflexivity. }
  unfold binary_round_aux. rewrite Hshr.
  cbn [shr_m loc_of_shr_record round_nearest_even]. rewrite Hshr.
  cbn [shr_m]. by rewrite Hbound.
Qed.

(** An integer below [2 ** 53] in magnitude is a binary64 number. *)
Lemma binary_round_integer (s : bool) (n : positive) :
  (Zpos n < 2 ^ 53)%Z ->
  exists m e,
    binary_round F64.prec F64.emax s n 0 = S754_finite s m e /\
    valid_binary F64.prec F64.emax (S754_finite s m e) = true /\
    (e <= 0)%Z /\ (Zpos m = Zpos n * 2 ^ (- e))%Z.
Proof.
  intros Hn.
  pose proof (digits2_pos_lower n) as Hlow.
  assert (Zpos (digits2_pos n) <= 53)%Z as Hd.
  { destruct (Z.le_gt_cases (Zpos (digits2_pos n)) 53) as [|Hgt]; [done|].
    exfalso. assert (2 ^ 53 <= 2 ^ (Zpos (digits2_pos n) - 1))%Z; [|lia].
    apply Z.pow_le_mono_r; lia. }
  unfold binary_round, shl_align.
  assert (fexp F64.prec F64.emax (Zpos (digits2_pos n) + 0) - 0
          = Zpos (digits2_pos n) - 53)%Z as ->.
  { unfold fexp, emin, F64.prec, F64.emax. lia. }
  destruct (Zpos (digits2_pos n) - 53)%Z as [|k|k] eqn:Hk; [| lia |].
  - assert (valid_binary F64.prec F64.emax (S754_finite s n 0) = true) as Hv.
    { cbn [valid_binary]. unfold bounded, canonical_mantissa.
      apply andb_true_intro. split; [apply Z.eqb_eq|apply Z.leb_le].
      all: unfold fexp, emin, F64.prec, F64.emax; lia. }
    exists n, 0%Z. rewrite binary_round_aux_exact by done.
    repeat split; [done|lia|cbn; lia].
  - assert (fexp F64.prec F64.emax (Zpos (digits2_pos n) + 0) = Zneg k) as ->.
    { unfold fexp, emin, F64.prec, F64.emax. lia. }
    rewrite iter_xO_shiftl_nat.
    pose proof (digits2_pos_shiftl_nat n (Pos.to_nat k)) as Hdigits.
    assert (valid_binary F64.prec F64.emax
              (S754_finite s (Pos.shiftl_nat n (Pos.to_nat k)) (Zneg k)) = true)
      as Hv.
    { cbn [valid_binary]. unfold bounded, canonical_mantissa.
      apply andb_true_intro. split; [apply Z.eqb_eq|apply Z.leb_le].
      all: unfold fexp, emin, F64.prec, F64.emax; lia. }
    exists (Pos.shiftl_nat n (Pos.to_nat k)), (Zneg k).
    rewrite binary_round_aux_exact by done.
    repeat split; [done|lia|].
    rewrite Zpos_shiftl_nat. f_equal. f_equal. lia.
Qed.


Lemma shr_1_shiftl_nat (k : nat) (m : positive) :
  Nat.iter k shr_1 (Build_shr_record (Zpos (Pos.shiftl_nat m k)) false false)
  = Build_shr_record (Zpos m) false false.
Proof.
  induction k as [|k IH]; [done|].
  rewrite Nat.iter_succ_r.
  change (Pos.shiftl_nat m (S k)) with (xO (Pos.shiftl_nat m k)).
  cbn [shr_1 orb]. exact IH.
Qed.

(** One times a binary64 number is that number. *)
Lemma F64_mul_one_l (x : F64.float) :
  valid_binary F64.prec F64.emax x = true -> F64.mul F64.one x = x.
Proof.
  intros Hvalid.
  change F64.one with (S754_finite false 4503599627370496 (-52)).
  destruct x as [s|s| |s m e]; try done.
  unfold F64.mul, SFmul. cbn [xorb].
  pose proof Hvalid as Hv. cbn [valid_binary] in Hv.
  unfold bounded, canonical_mantissa in Hv.
  apply andb_prop in Hv as [Hcanon Hbound]. apply Z.eqb_eq in Hcanon.
  assert (Zpos (digits2_pos (4503599627370496 * m))
          = Zpos (digits2_pos m) + 52)%Z as Hdigits.
  { change (4503599627370496 * m)%positive with (Pos.shiftl_nat m 52).
    by rewrite digits2_pos_shiftl_nat. }
  assert (shr_fexp F64.prec F64.emax (Zpos (4503599627370496 * m)) (-52 + e) loc_Exact
          = (Build_shr_record (Zpos m) false false, e)) as Hshr1.
  { unfold shr_fexp. cbn [Zdigits2 shr_record_of_loc].
    replace (fexp F64.prec F64.emax
               (Zpos (digits2_pos (4503599627370496 * m)) + (-52 + e)) - (-52 + e))%Z
      with 52%Z.
    - unfold shr. rewrite iter_pos_nat.
      change (4503599627370496 * m)%positive with (Pos.shiftl_nat m 52).
      change (Pos.to_nat 52) with 52%nat.
      rewrite shr_1_shiftl_nat. f_equal. lia.
    - rewrite Hdigits.
      replace (Zpos (digits2_pos m) + 52 + (-52 + e))%Z
        with (Zpos (digits2_pos m) + e)%Z by lia.
      rewrite Hcanon. lia. }
  assert (shr_fexp F64.prec F64.emax (Zpos m) e loc_Exact
          = (Build_shr_record (Zpos m) false false, e)) as Hshr2.
  { unfold shr_fexp. cbn [Zdigits2 shr_record_of_loc].
    rewrite Hcanon, Z.sub_diag. reflexivity. }
  unfold binary_round_aux. rewrite Hshr1.
  cbn [shr_m loc_of_shr_record round_nearest_even]. rewrite Hshr2.
  cbn [shr_m]. by rewrite Hbound.
Qed.

Lemma F64_of_Z_exact (s : bool) (n : positive) :
  (Zpos n < 2 ^ 53)%Z ->
  exists m e,
    F64.of_Z (cond_Zopp s (Zpos n)) = S754_finite s m e /\
    valid_binary F64.prec F64.emax (S754_finite s m e) = true /\
    (e <= 0)%Z /\ (Zpos m = Zpos n * 2 ^ (- e))%Z.
Proof.
  intros Hn. destruct (binary_round_integer s n Hn) as (m & e & Hround & Hrest).
  exists m, e. split; [|done]. by destruct s.
Qed.

(** [int(float(z))] is [z] for an integer below [2 ** 53] in magnitude. *)
Lemma py_int_of_Z (z : Z) :
  (Z.abs z < 2 ^ 53)%Z ->
  exists x, F64.py_of_int z = Ok x /\
    valid_binary F64.prec F64.emax x = true /\ F64.py_int x = Ok z.
Proof.
  intros Hz. destruct z as [|n|n].
  - by exists F64.zero.
  - destruct (F64_of_Z_exact false n) as (m & e & Hof & Hv & He & Hm); [lia|].
    cbn [cond_Zopp] in Hof. exists (S754_finite false m e).
    unfold F64.py_of_int. rewrite Hof. repeat split; [done|].
    cbn [F64.py_int cond_Zopp]. f_equal.
    rewrite Z.shiftl_div_pow2, Hm by lia. apply Z.div_mul. lia.
  - destruct (F64_of_Z_exact true n) as (m & e & Hof & Hv & He & Hm); [lia|].
    cbn [cond_Zopp] in Hof. exists (S754_finite true m e).
    unfold F64.py_of_int. change (Z.neg n) with (- Z.pos n)%Z. rewrite Hof.
    repeat split; [done|].
    cbn [F64.py_int cond_Zopp]. f_equal. f_equal.
    rewrite Z.shiftl_div_pow2, Hm by lia. apply Z.div_mul. lia.
Qed.

(** When the ratio [split/(1-split)] is [1.0], [n_split] is
    [sample_size]. *)
Lemma n_split_ratio_one (split : F64.float) (sample_size : Z) :
  F64.py_truediv split (F64.sub F64.one split) = Ok F64.one ->
  (Z.abs sample_size < 2 ^ 53)%Z ->
  n_split split sample_size = Ok sample_size.
Proof.
  intros Hratio Hsize. unfold n_split. rewrite Hratio. cbn [bind].
  destruct (py_int_of_Z sample_size Hsize) as (x & -> & Hv & Hint).
  cbn [bind]. by rewrite F64_mul_one_l.
Qed.

Lemma split_default_ratio :
  F64.py_truediv split_default (F64.sub F64.one split_default) = Ok F64.one.
Proof. vm_compute. reflexivity. Qed.

(** With the default [split = 0.5] the ratio [split/(1-split)] is [1.0]
    and [n_split] is [sample_size] itself, for every [sample_size] that a
    float holds exactly (below [2 ** 53] in magnitude). *)
Theorem n_split_default (sample_size : Z) :
  (Z.abs sample_size < 2 ^ 53)%Z ->
  n_split split_default sample_size = Ok sample_size.
Proof.
  intros Hsize. apply n_split_ratio_one; [|done].
  unfold F64.py_truediv.
  assert (F64.sub F64.one split_default = split_default) as ->
    by (vm_compute; reflexivity).
  assert (F64.is_zero split_default = false) as ->
    by (vm_compute; reflexivity).
  vm_compute. reflexivity.
Qed.

Lemma n_split_default_witness :
  (Z.abs 5000 < 2 ^ 53)%Z /\ n_split split_default 5000 = Ok 5000%Z.
Proof. split; [lia|apply (n_split_default 5000); lia]. Defined.

(** [l[:hi]] for a bound past the end of the list. *)
Lemma slice_prefix_all {X} (l : list X) (hi : Z) :
  (Z.of_nat (length l) <= hi)%Z -> slice l None (Some hi) = l.
Proof.
  intros Hhi. unfold slice, adjust_index. cbn [from_option].
  destruct (Z.ltb_spec hi 0); [lia|].
  change (Z.to_nat 0) with 0. rewrite drop_0. apply firstn_all2. lia.
Qed.

Lemma is_array2_expand_dims {X} (v : list X) :
  is_array2 (length v) 1 (Np.expand_dims v).
Proof.
  unfold Np.expand_dims. split; [by rewrite length_map|].
  by apply Forall_fmap, Forall_true.
Qed.

Lemma item2_expand_dims {X} (v : list X) t :
  item2 (Np.expand_dims v) t 0 = v !! t.
Proof.
  unfold item2, Np.expand_dims. rewrite list_lookup_fmap.
  by destruct (v !! t).
Qed.

Lemma item3_fmap {X Y} (f : X -> Y) (h : list (list (list X))) i j d :
  item3 (map (map (map f)) h) i j d = f <$> item3 h i j d.
Proof.
  unfold item3, item2. rewrite list_lookup_fmap.
  destruct (h !! i) as [m|]; [|done]. cbn. rewrite list_lookup_fmap.
  destruct (m !! j) as [r|]; [|done]. cbn. by rewrite list_lookup_fmap.
Qed.

Lemma is_array3_fmap {X Y} (f : X -> Y) (h : list (list (list X))) n m k :
  is_array3 n m k h -> is_array3 n m k (map (map (map f)) h).
Proof.
  intros [Hn Hh]. split; [by rewrite length_map|].
  apply Forall_fmap. eapply Forall_impl; [exact Hh|].
  intros a [Hm Ha]. split; [by rewrite length_map|].
  apply Forall_fmap. eapply Forall_impl; [exact Ha|].
  intros r Hr. cbn. by rewrite length_map.
Qed.

(** [split = 1.0] is rejected for every dataset and every size:
    [split/(1-split)] divides by zero before anything else is looked at. *)
Theorem train_test_split_one (dataset : list F64.float)
    (sample_size time_window : Z) (std : F64.float) :
  train_test dataset sample_size time_window std F64.one
  = Raise ZeroDivisionError.
Proof.
  unfold train_test, train_test_hankel, n_split.
  assert (F64.py_truediv F64.one (F64.sub F64.one F64.one)
          = Raise ZeroDivisionError) as -> by (vm_compute; reflexivity).
  reflexivity.
Qed.

(** With the default split and enough data ([2 * sample_size < n] and
    [sample_size + time_window <= n]) both matrices have the shape
    (sample_size, time_window, 1); the train matrix holds the last
    [sample_size] windows of the series that end before its last sample,
    the test matrix the first [sample_size] windows of the series, and
    both are rescaled with one and the same mean and deviation. *)
Theorem train_test_default_split (dataset : list F64.float)
    (sample_size time_window : Z) (std : F64.float) :
  let n := length dataset in
  let S := Z.to_nat sample_size in
  let W := Z.to_nat time_window in
  (1 <= sample_size)%Z -> (1 <= time_window)%Z ->
  (Z.of_nat n < 2 ^ 53)%Z ->
  (2 * sample_size < Z.of_nat n)%Z ->
  (sample_size + time_window <= Z.of_nat n)%Z ->
  exists (mn sd : F64.float) X_train X_test,
    let rescale x := F64.div (F64.sub x mn) (F64.mul std sd) in
    train_test dataset sample_size time_window std split_default
    = Ok (Emb3 X_train, Emb3 X_test) /\
    is_array3 S W 1 X_train /\ is_array3 S W 1 X_test /\
    forall i j, i < S -> j < W ->
      item3 X_train i j 0 = rescale <$> dataset !! (n - S - W + i + j) /\
      item3 X_test i j 0 = rescale <$> dataset !! (i + j).
Proof.
  intros n S W HS HW Hn HSn HSWn. unfold train_test.
  rewrite (train_test_hankel_windows _ _ _ _ sample_size);
    [|apply (n_split_ratio_one _ _ split_default_ratio); lia|lia..].
  cbn [bind]. do 4 eexists. split; [reflexivity|].
  split; [|split].
  - apply is_array3_fmap.
    apply (is_array3_windows _ n 1); [apply is_array2_expand_dims|]. lia.
  - apply is_array3_fmap.
    apply (is_array3_windows _ (S + W) 1).
    + replace (S + W) with (length (take (Z.to_nat (sample_size + time_window)) dataset)).
      * apply is_array2_expand_dims.
      * rewrite length_take. lia.
    + lia.
  - intros i j Hi Hj. rewrite !item3_fmap, !item3_windows by done.
    rewrite !item2_expand_dims. split; [done|].
    rewrite lookup_take_lt by lia. do 2 f_equal. lia.
Qed.

(** A window longer than [n - sample_size] raises nothing: with the
    default split the train and the test matrix are then one and the same
    matrix, of [n - sample_size] columns instead of [time_window]. *)
Theorem train_test_long_window (dataset : list F64.float)
    (sample_size time_window : Z) (std : F64.float) :
  let n := length dataset in
  (1 <= sample_size)%Z -> (Z.of_nat n < 2 ^ 53)%Z ->
  (2 * sample_size < Z.of_nat n)%Z ->
  (Z.of_nat n < sample_size + time_window)%Z ->
  exists X,
    train_test dataset sample_size time_window std split_default
    = Ok (Emb3 X, Emb3 X) /\
    is_array3 (Z.to_nat sample_size) (n - Z.to_nat sample_size) 1 X.
Proof.
  intros n HS Hn HSn HnSW. unfold train_test, train_test_hankel.
  rewrite (n_split_ratio_one _ _ split_default_ratio) by lia. cbn [bind].
  destruct (Z.ltb_spec (sample_size + sample_size) (Z.of_nat (length dataset)));
    [|lia].
  cbn [negb]. rewrite slice_prefix_all by (fold n; lia).
  unfold hankel_matrix.
  rewrite (_hankel_matrix_short_windows _ n 1);
    [|apply is_array2_expand_dims|lia..].
  cbn [bind]. eexists. split; [reflexivity|].
  apply is_array3_fmap.
  apply (is_array3_windows _ n 1); [apply is_array2_expand_dims|]. lia.
Qed.

Lemma train_test_default_split_witness :
  let dataset := F64.of_Z <$> [0; 1; 2; 3; 4; 5; 6]%Z in
  exists (mn sd : F64.float) X_train X_test,
    let rescale x := F64.div (F64.sub x mn) (F64.mul F64.one sd) in
    train_test dataset 2 3 F64.one split_default
    = Ok (Emb3 X_train, Emb3 X_test) /\
    is_array3 2 3 1 X_train /\ is_array3 2 3 1 X_test /\
    forall i j, i < 2 -> j < 3 ->
      item3 X_train i j 0 = rescale <$> dataset !! (7 - 2 - 3 + i + j) /\
      item3 X_test i j 0 = rescale <$> dataset !! (i + j).
Proof.
  intros dataset.
  apply (train_test_default_split dataset 2 3 F64.one); cbn; lia.
Defined.

Lemma train_test_long_window_witness :
  exists X,
    train_test (F64.of_Z <$> [0; 1; 2; 3; 4]%Z) 2 10 F64.one split_default
    = Ok (Emb3 X, Emb3 X) /\
    is_array3 (Z.to_nat 2)
      (length (F64.of_Z <$> [0; 1; 2; 3; 4]%Z) - Z.to_nat 2) 1 X.
Proof.
  apply (train_test_long_window (F64.of_Z <$> [0; 1; 2; 3; 4]%Z) 2 10 F64.one);
    cbn; lia.
Defined.

(** With the default split, the series must be more than twice
    [sample_size] long: [train_test] fails with the insufficient-data
    assertion exactly when [len(dataset) <= 2 * sample_size]. *)
Theorem train_test_default_split_assertion (dataset : list F64.float)
    (sample_size time_window : Z) (std : F64.float) :
  (Z.abs sample_size < 2 ^ 53)%Z ->
  train_test dataset sample_size time_window std split_default
  = Raise (AssertionError "Not enough data to make complete split")
  <-> (Z.of_nat (length dataset) <= 2 * sample_size)%Z.
Proof.
  intros HS. unfold train_test, train_test_hankel.
  rewrite (n_split_ratio_one _ _ split_default_ratio) by done. cbn [bind].
  destruct (Z.ltb_spec (sample_size + sample_size) (Z.of_nat (length dataset)))
    as [Hlt|Hge]; cbn [negb].
  - split; [|lia]. intros Hraise. exfalso.
    destruct (hankel_matrix (Arr1 dataset) _ _) as [hm_train|e] eqn:Htrain;
      cbn [bind] in Hraise.
    + destruct (hankel_matrix (Arr1 (slice _ _ _)) _ _) as [hm_test|e] eqn:Htest;
        cbn [bind] in Hraise; [discriminate|].
      apply hankel_matrix_raises in Htest. congruence.
    + apply hankel_matrix_raises in Htrain. congruence.
  - split; [lia|done].
Qed.

Lemma train_test_default_split_assertion_witness :
  train_test (F64.of_Z <$> [0; 1; 2; 3]%Z) 2 1 F64.one split_default
  = Raise (AssertionError "Not enough data to make complete split")
  <-> (Z.of_nat (length (F64.of_Z <$> [0; 1; 2; 3]%Z)) <= 2 * 2)%Z.
Proof.
  apply (train_test_default_split_assertion (F64.of_Z <$> [0; 1; 2; 3]%Z) 2 1 F64.one).
  lia.
Defined.

(** ** hankel_matrix: rejected batches, items moved and never computed on *)




(** A batch without a series, or a batch of series without a channel, is
    rejected: numpy has nothing to stack. *)
Theorem hankel_matrix_batch_rejected {X} (batch : list (list (list X)))
    (N T D : nat) (q : Z) (p : option Z) :
  is_array3 N T D batch -> 0 < T -> N = 0 \/ D = 0 ->
  hankel_matrix (Arr3 batch) q p = Raise ValueError.
Proof.
  intros [HN Hitems] HT Hempty. unfold hankel_matrix.
  destruct batch as [|item batch]; [done|].
  destruct Hempty as [->| ->]; [done|].
  apply Forall_inv in Hitems as [Hlen Hrows].
  destruct item as [|r0 item]; [simpl in Hlen; lia|].
  apply Forall_inv in Hrows. apply length_zero_iff_nil in Hrows as ->.
  reflexivity.
Qed.


Lemma hankel_matrix_batch_rejected_witness :
  hankel_matrix (Arr3 [[[]; []]; [[]; []]] : ndarray Z) 3 None
  = Raise ValueError.
Proof.
  apply (hankel_matrix_batch_rejected _ 2 2 0); [|lia|by right].
  split; [done|]. by repeat constructor.
Defined.

(** ** standardize_ts: channel by channel, the sign of the scale, moments *)

Section StandardizeMore.
Context {F : Type} `{Np.Dtype F}.


End StandardizeMore.

Lemma binary_round_aux_opp (s : bool) (m e : Z) (l : location) :
  binary_round_aux F64.prec F64.emax (negb s) m e l
  = SFopp (binary_round_aux F64.prec F64.emax s m e l).
Proof.
  unfold binary_round_aux.
  destruct (shr_fexp F64.prec F64.emax m e l) as [mrs' e'].
  destruct (shr_fexp F64.prec F64.emax _ e' loc_Exact) as [mrs'' e''].
  destruct (shr_m mrs'') as [|m''|m'']; [done| |done].
  by destruct (e'' <=? F64.emax - F64.prec)%Z.
Qed.

Lemma F64_mul_opp_l (x y : F64.float) :
  F64.mul (SFopp x) y = SFopp (F64.mul x y).
Proof.
  destruct x as [sx|sx| |sx mx ex], y as [sy|sy| |sy my ey];
    cbn [F64.mul SFmul SFopp]; unfold F64.mul, SFmul; cbn [SFopp];
    rewrite <- ?negb_xorb_l; try done.
  apply binary_round_aux_opp.
Qed.

Lemma F64_div_opp_r (x y : F64.float) :
  F64.div x (SFopp y) = SFopp (F64.div x y).
Proof.
  destruct x as [sx|sx| |sx mx ex], y as [sy|sy| |sy my ey];
    unfold F64.div, SFdiv; cbn [SFopp];
    rewrite <- ?negb_xorb_r; try done.
  destruct (SFdiv_core_binary _ _ _ _ _ _) as [[mz ez] lz].
  apply binary_round_aux_opp.
Qed.

(** Changing the sign of [scale] changes the sign of every item of the
    output, and nothing else. *)
Theorem standardize_ts_opp_scale (a : list (list F64.float)) (T D : nat)
    (scale : F64.float) :
  is_array2 T D a ->
  standardize_ts a (SFopp scale) = map (map SFopp) (standardize_ts a scale).
Proof.
  intros Ha. rewrite !(standardize_ts_items a T D) by done.
  rewrite <- list_fmap_compose. apply list_fmap_ext. intros t row _.
  cbn [compose]. apply list_eq. intros d.
  rewrite list_lookup_fmap, !list_lookup_imap.
  destruct (row !! d) as [x|]; [|done]. cbn. f_equal.
  unfold standardize_item, standardize_value.
  cbn [Np.true_divide Np.multiply F64.dtype].
  by rewrite F64_mul_opp_l, F64_div_opp_r.
Qed.

Section ExactMoments.
Local Open Scope R_scope.

Lemma standardize_value_moments (l : list R) (s : R) :
  l <> [] -> s <> 0 ->
  let out := standardize_value l s <$> l in
  Np.mean out = 0 /\ (Np.std l <> 0 -> Np.std out = / Rabs s).
Proof.
  intros Hne Hs out.
  assert (0 < INR (length l)) as Hn.
  { apply lt_0_INR. destruct l; [done|simpl; lia]. }
  set (mu := Np.mean l).
  set (V := sum_sq mu l / INR (length l)).
  assert (0 <= V) as HV.
  { unfold V. apply Rmult_le_pos; [apply sum_sq_nonneg|].
    apply Rlt_le, Rinv_0_lt_compat, Hn. }
  assert (Np.std l = sqrt V) as Hsd by apply Rstd_eq.
  set (fix_sd := if Req_dec_T (Np.std l) 0 then 1 else Np.std l).
  assert (0 < fix_sd) as Hfix.
  { unfold fix_sd. destruct (Req_dec_T (Np.std l) 0) as [_|Hnz]; [lra|].
    rewrite Hsd in *. pose proof (sqrt_pos V). lra. }
  set (k := s * fix_sd).
  assert (k <> 0) as Hk.
  { unfold k. apply Rmult_integral_contrapositive_currified; lra. }
  assert (out = (fun y => (y - mu) / k) <$> l) as ->.
  { unfold out. apply list_fmap_ext. intros; apply Rstandardize_value_eq. }
  assert (Np.mean ((fun y => (y - mu) / k) <$> l) = 0) as Hmean.
  { rewrite Rmean_eq, Rsum_shift_scale, length_fmap.
    unfold mu. rewrite Rmean_eq. field. split; lra. }
  split; [done|]. intros Hnz.
  rewrite Rstd_eq, Hmean, sum_sq_shift_scale, length_fmap.
  replace (sum_sq mu l * (/ k * / k) / INR (length l))
    with (V * (/ k * / k)) by (unfold V, Rdiv; ring).
  assert (fix_sd = sqrt V) as Hfix_sd.
  { unfold fix_sd. destruct (Req_dec_T (Np.std l) 0); [done|]. apply Hsd. }
  assert (V = sqrt V * sqrt V) as HVV by (symmetry; by apply sqrt_sqrt).
  assert (sqrt V <> 0) as HsV by (by rewrite <- Hsd).
  replace (V * (/ k * / k)) with (Rsqr (/ s)).
  - rewrite sqrt_Rsqr_abs. apply Rabs_inv.
  - unfold Rsqr, k. rewrite Hfix_sd. clearbody V.
    set (r := sqrt V) in *. rewrite HVV. field. by split.
Qed.

End ExactMoments.

(** In exact arithmetic (the items being real numbers) and for a scale
    other than zero, every channel of the output has mean zero, and the
    standard deviation of a channel that is not constant becomes
    [1 / |scale|]. *)
Theorem standardize_ts_moments_exact (a : list (list R)) (T D : nat)
    (scale : R) (d : nat) :
  is_array2 T D a -> 0 < T -> d < D -> scale <> 0%R ->
  let out := Np.column d (standardize_ts a scale) in
  Np.mean out = 0%R /\
  (Np.std (Np.column d a) <> 0%R -> Np.std out = (/ Rabs scale)%R).
Proof.
  intros Ha HT Hd Hs out. unfold out.
  rewrite (column_standardize_ts a T D) by done.
  apply standardize_value_moments; [|done].
  intros Hnil. apply (f_equal length) in Hnil.
  rewrite (column_length T D) in Hnil by done. simpl in Hnil. lia.
Qed.


Lemma standardize_ts_opp_scale_witness :
  standardize_ts [[F64.of_Z 1]; [F64.of_Z 3]] (SFopp (F64.of_Z 2))
  = map (map SFopp) (standardize_ts [[F64.of_Z 1]; [F64.of_Z 3]] (F64.of_Z 2)).
Proof.
  apply (standardize_ts_opp_scale _ 2 1).
  split; [done|]. by repeat constructor.
Defined.

Lemma standardize_ts_moments_exact_witness :
  let out := Np.column 0 (standardize_ts [[1]; [3]]%R 2%R) in
  Np.std (Np.column 0 [[1]; [3]]%R) <> 0%R /\
  Np.mean out = 0%R /\ Np.std out = (/ Rabs 2)%R.
Proof.
  intros out.
  assert (Np.std (Np.column 0 [[1]; [3]]%R) <> 0%R) as Hstd.
  { apply Rgt_not_eq, Rlt_gt, sqrt_lt_R0. cbn. lra. }
  split; [done|].
  destruct (standardize_ts_moments_exact [[1]; [3]]%R 2 1 2%R 0)
    as [Hmean Hout]; try lia.
  - split; [done|]. by repeat constructor.
  - lra.
  - split; [exact Hmean|exact (Hout Hstd)].
Defined.

(** ** lighter *)

Section Lighter.
Context {F : Type} `{Np.Dtype F}.

Lemma lighter_lookup (clr : list F) (f : F) (i : nat) :
  lighter clr f !! i
  = (fun val => Np.add val (Np.multiply f (Np.subtract Np.one val)))
      <$> clr !! i.
Proof.
  unfold lighter. rewrite lookup_zip_with, list_lookup_fmap.
  by destruct (clr !! i).
Qed.

End Lighter.

(** A component that is 1.0 stays 1.0, for every finite fraction [f]:
    white is not made lighter. *)
Theorem lighter_one_fixed (clr : list F64.float) (f : F64.float) (i : nat) :
  F64.is_finite f = true -> clr !! i = Some F64.one ->
  lighter clr f !! i = Some F64.one.
Proof.
  intros Hf Hi. rewrite lighter_lookup, Hi. cbn [fmap option_fmap option_map].
  f_equal. cbn [Np.add Np.multiply Np.subtract Np.one F64.dtype].
  change (F64.sub F64.one F64.one) with (S754_zero false).
  destruct f as [s|s| |s m e]; try done.
Qed.

Section LighterExact.
Local Open Scope R_scope.

(** In exact arithmetic, a fraction in [0 .. 1] takes a component that is
    at most 1 to a value between the component and 1. *)
Theorem lighter_bounds_exact (clr : list R) (f : R) (i : nat) (val : R) :
  0 <= f <= 1 -> clr !! i = Some val -> val <= 1 ->
  exists new_val, lighter clr f !! i = Some new_val /\ val <= new_val <= 1.
Proof.
  intros Hf Hi Hval. rewrite lighter_lookup, Hi. eexists. split; [done|].
  cbn [Np.add Np.multiply Np.subtract Np.one Exact.dtype]. nra.
Qed.

(** In exact arithmetic, lightening by [f] and then by [g] is lightening
    once, by [f + g - f * g]. *)
Theorem lighter_twice_exact (clr : list R) (f g : R) :
  lighter (lighter clr f) g = lighter clr (f + g - f * g).
Proof.
  apply list_eq. intros i. rewrite !lighter_lookup.
  destruct (clr !! i) as [val|]; [|done]. cbn. f_equal. ring.
Qed.

End LighterExact.

Lemma lighter_one_fixed_witness :
  lighter [F64.one; F64.zero; F64.one] (F64.div F64.one (F64.of_Z 3)) !! 2
  = Some F64.one.
Proof. by apply (lighter_one_fixed _ _ 2). Defined.

Lemma lighter_bounds_exact_witness :
  exists new_val,
    lighter [0; 1 / 2; 1]%R (1 / 3)%R !! 1 = Some new_val /\
    (1 / 2 <= new_val <= 1)%R.
Proof.
  apply (lighter_bounds_exact _ _ 1 (1 / 2)%R); [lra|done|lra].
Defined.
